(** * psrecord: the sampling loop of [psrecord/main.py] and its callers

    A shallow embedding of [get_percent], [get_memory], [all_children],
    [monitor] and [main], and the properties of the sampling loop: which
    exits it has, what each sample aggregates, what reaches the log file,
    the in-memory series and the chart, and when a spawned process is
    killed.

    Modelling conventions.
    - Python floats are exact rationals ([Q]); integers are [Z].  No
      property below depends on rounding.
    - The operating system is a script: a [World] holds the answer of every
      call the program makes outside the sampling loop, and one [Tick] per
      loop iteration holds the answers of that iteration.  A call that
      raises is an [Exc]; a [KeyboardInterrupt] delivered during a call is
      that call raising [KeyboardInterrupt].
    - What the program does to the outside is a chronological list of
      [Event]s.  The text layout of a log row and the pixels of the chart
      are not modelled: a row and a chart are the values they are built
      from. *)

From Stdlib Require Import List ZArith QArith Qminmax Bool String Ascii Lia Lqa.
From Stdlib Require Import Sorted.
Import ListNotations.

Set Implicit Arguments.

Open Scope Q_scope.

(** ** Exceptions *)

Module Py.

(** The exception classes that the handlers of [main.py] tell apart, and
    the ones its calls raise. *)
Inductive Exn : Type :=
| AttributeError
| TypeError
| ValueError
| IndexError
| OSError
| NoSuchProcess
| ZombieProcess          (* psutil: a subclass of NoSuchProcess *)
| AccessDenied
| KeyboardInterrupt.     (* a BaseException, not an Exception *)

(** [except Exception] *)
Definition is_Exception (e : Exn) : bool :=
  match e with KeyboardInterrupt => false | _ => true end.

(** [except AttributeError] *)
Definition is_AttributeError (e : Exn) : bool :=
  match e with AttributeError => true | _ => false end.

(** [except TypeError] *)
Definition is_TypeError (e : Exn) : bool :=
  match e with TypeError => true | _ => false end.

(** [except psutil.NoSuchProcess] *)
Definition is_NoSuchProcess (e : Exn) : bool :=
  match e with NoSuchProcess | ZombieProcess => true | _ => false end.

(** [except KeyboardInterrupt] *)
Definition is_KeyboardInterrupt (e : Exn) : bool :=
  match e with KeyboardInterrupt => true | _ => false end.

(** The result of one call. *)
Inductive Res (A : Type) : Type :=
| Ok (a : A)
| Exc (e : Exn).
Arguments Ok {A} a.
Arguments Exc {A} e.

(** [x > y] on floats. *)
Definition gt (x y : Q) : bool := negb (Qle_bool x y).

(** [max(iterable)]: the first largest item; [ValueError] on an empty
    sequence. *)
Definition max_from (m : Q) (l : list Q) : Q :=
  fold_left (fun acc x => if gt x acc then x else acc) l m.

Definition max (l : list Q) : Res Q :=
  match l with
  | [] => Exc ValueError
  | x :: r => Ok (max_from x r)
  end.

(** [t[i]] on a tuple. *)
Definition index (t : list Z) (i : nat) : Res Z :=
  match nth_error t i with
  | Some v => Ok v
  | None => Exc IndexError
  end.

(** Truth value of [None] or a string: [if logfile:], [if plot:]. *)
Definition truthy (o : option string) : bool :=
  match o with
  | None => false
  | Some s => negb (String.eqb s EmptyString)
  end.

(** [int(s)] on an ASCII string in base ten: surrounding white space, an
    optional sign, then digits, single underscores allowed between
    digits.  [None] is [ValueError]. *)
Definition is_space (a : ascii) : bool :=
  let n := nat_of_ascii a in
  (Nat.leb 9 n && Nat.leb n 13) || Nat.eqb n 32.

Definition digit_of (a : ascii) : option Z :=
  let n := nat_of_ascii a in
  if Nat.leb 48 n && Nat.leb n 57 then Some (Z.of_nat (n - 48)) else None.

Fixpoint lstrip (s : string) : string :=
  match s with
  | String a r => if is_space a then lstrip r else s
  | EmptyString => s
  end.

(** After at least one digit has been read: [acc] is the value so far,
    [after_us] tells that the previous character was an underscore. *)
Fixpoint digits (acc : Z) (after_us : bool) (s : string) : option Z :=
  match s with
  | EmptyString => if after_us then None else Some acc
  | String a r =>
      match digit_of a with
      | Some d => digits (10 * acc + d)%Z false r
      | None =>
          if Ascii.eqb a "_"%char then
            if after_us then None else digits acc true r
          else if after_us then None
          else if String.eqb (lstrip s) EmptyString then Some acc
          else None
      end
  end.

Definition unsigned (s : string) : option Z :=
  match s with
  | String a r =>
      match digit_of a with
      | Some d => digits d false r
      | None => None
      end
  | EmptyString => None
  end.

Definition int (s : string) : option Z :=
  match lstrip s with
  | String a r =>
      if Ascii.eqb a "-"%char then option_map Z.opp (unsigned r)
      else if Ascii.eqb a "+"%char then unsigned r
      else unsigned (String a r)
  | EmptyString => None
  end.

End Py.
Import Py.

(** ** The process handle *)

(** [psutil]'s process status constants. *)
Inductive Status : Type :=
| STATUS_RUNNING | STATUS_SLEEPING | STATUS_DISK_SLEEP | STATUS_STOPPED
| STATUS_TRACING_STOP | STATUS_ZOMBIE | STATUS_DEAD | STATUS_WAKING
| STATUS_IDLE | STATUS_LOCKED | STATUS_WAITING.

(** [memory_info()]: the fields the program reads. *)
Record MemInfo : Type := { rss : Z; vms : Z }.

(** What a [psutil.Process] answers during one sample pass.  Every method
    is called at most once per pass, so one answer each is enough.  The
    [get_*] methods and the [status] attribute are those of old psutil
    versions, which the program falls back to. *)
#[warnings="-register-all"]
Inductive Proc : Type := MkProc {
  cpu_percent : Res Q;
  get_cpu_percent : Res Q;
  memory_info : Res MemInfo;
  get_memory_info : Res MemInfo;
  io_counters : Res (list Z);
  status_call : Res Status;       (* pr.status() *)
  status_attr : Status;           (* pr.status *)
  children : Res (list Proc);
  get_children : Res (list Proc)
}.

(** [get_percent] *)
Definition get_percent (process : Proc) : Res Q :=
  match cpu_percent process with
  | Ok v => Ok v
  | Exc e => if is_AttributeError e then get_cpu_percent process else Exc e
  end.

(** [get_memory] *)
Definition get_memory (process : Proc) : Res MemInfo :=
  match memory_info process with
  | Ok v => Ok v
  | Exc e => if is_AttributeError e then get_memory_info process else Exc e
  end.

(** [all_children]: the descendants in depth-first pre-order.  A failing
    [children()] gives no children, except that an [AttributeError] falls
    back to [get_children()], whose own failure is not caught, and that a
    [KeyboardInterrupt] is not caught either. *)
Fixpoint all_children (pr : Proc) : Res (list Proc) :=
  let walk :=
    fix walk (cs : list Proc) : Res (list Proc) :=
      match cs with
      | [] => Ok []
      | child :: rest =>
          match all_children child with
          | Exc e => Exc e
          | Ok below =>
              match walk rest with
              | Exc e => Exc e
              | Ok after => Ok (child :: below ++ after)
              end
          end
      end in
  match children pr with
  | Ok cs => walk cs
  | Exc e =>
      if is_AttributeError e then
        match get_children pr with
        | Ok cs => walk cs
        | Exc e' => Exc e'
        end
      else if is_Exception e then Ok []
      else Exc e
  end.

(** ** Configuration, series, events *)

(** The parameters of [monitor]. *)
Record Config : Type := {
  logfile : option string;
  plot : option string;
  duration : option Q;
  interval : option Q;
  include_children : bool;
  include_io : bool;
  max_cpu_scale : bool
}.

(** The [log] dictionary of [monitor]: one list per key. *)
Record Log : Type := {
  times : list Q;
  cpu : list Q;
  mem_real : list Q;
  mem_virtual : list Q;
  io : list Q;
  io_read : list Q;
  io_write : list Q
}.

Definition empty_log : Log :=
  {| times := []; cpu := []; mem_real := []; mem_virtual := [];
     io := []; io_read := []; io_write := [] |}.

(** What is printed. *)
Inductive Message : Type :=
| Attaching (pid : Z)
| StartingUp (command : string)
| ProcessFinished (elapsed : Q).

(** What is written to the log file. *)
Inductive Line : Type :=
| Header
| Row (elapsed cpu_pc real virt : Q).

(** What is drawn: the curves with the lists handed to [plot], and the
    limits handed to [set_ylim]. *)
Record Curve : Type := { xs : list Q; ys : list Q; color : string }.

Record Chart : Type := {
  left_curve : Curve;
  left_ylim : Q * Q;
  right_curves : list Curve;
  right_ylim : Q * Q;
  right_ylabel : string;
  legends : bool
}.

Inductive Event : Type :=
| EPrint (m : Message)
| ESpawn (command : string) (pid : Z)    (* subprocess.Popen(command, shell=True) *)
| EAttach (pid : Z)                      (* psutil.Process(pid) *)
| EOpen (path : string)                  (* open(logfile, 'w') *)
| EWrite (l : Line)                      (* f.write *)
| EFlush                                 (* f.flush() *)
| EClose                                 (* f.close() *)
| ESavefig (path : string) (c : Chart)   (* fig.savefig(plot) *)
| EKill (pid : Z).                       (* sprocess.kill() *)

(** ** The script of the operating system *)

(** One iteration of the loop. *)
Record Tick : Type := {
  t_time : Q;                  (* time.time() *)
  t_proc : Proc;               (* the root handle during this pass *)
  t_write : Res unit;          (* f.write(row) *)
  t_flush : Res unit;          (* f.flush() *)
  t_sleep : Res unit;          (* time.sleep(interval), interval >= 0 *)
  t_append_intr : option nat   (* a KeyboardInterrupt delivered after that
                                  many of the six appends *)
}.

Record World : Type := {
  w_popen : Res Z;             (* subprocess.Popen(...).pid *)
  w_process : Res unit;        (* psutil.Process(pid) *)
  w_start : Q;                 (* the first time.time() *)
  w_open : Res unit;           (* open(logfile, 'w') *)
  w_header : Res unit;         (* f.write(header) *)
  w_ticks : list Tick;
  w_close : Res unit;          (* f.close() *)
  w_cpu_count : option Z;      (* os.cpu_count() *)
  w_savefig : Res unit         (* fig.savefig(plot) *)
}.

(** ** Control flow *)

(** How a statement ends: normally, by [break], by raising, or not within
    the script ([Pending]: the loop is still running when the script of
    ticks is used up). *)
Inductive Ctl (A : Type) : Type :=
| Val (a : A)
| Brk
| Thr (e : Exn)
| Pending.
Arguments Val {A} a.
Arguments Brk {A}.
Arguments Thr {A} e.
Arguments Pending {A}.

Record St : Type := { trace : list Event; log : Log }.

Definition M (A : Type) : Type := St -> St * Ctl A.

Definition ret {A} (a : A) : M A := fun s => (s, Val a).

Definition bind {A B} (m : M A) (k : A -> M B) : M B :=
  fun s =>
    match m s with
    | (s', Val a) => k a s'
    | (s', Brk) => (s', Brk)
    | (s', Thr e) => (s', Thr e)
    | (s', Pending) => (s', Pending)
    end.

Notation "x <- m ;; k" := (bind m (fun x => k))
  (at level 61, m at next level, right associativity).
Notation "m ;; k" := (bind m (fun _ => k))
  (at level 61, right associativity).

Definition brk {A} : M A := fun s => (s, Brk).
Definition throw {A} (e : Exn) : M A := fun s => (s, Thr e).

(** A call: its answer comes from the script. *)
Definition call {A} (r : Res A) : M A :=
  match r with
  | Ok a => ret a
  | Exc e => throw e
  end.

Definition emit (ev : Event) : M unit :=
  fun s => ({| trace := trace s ++ [ev]; log := log s |}, Val tt).

Definition modify_log (f : Log -> Log) : M unit :=
  fun s => ({| trace := trace s; log := f (log s) |}, Val tt).

Definition when (b : bool) (m : M unit) : M unit :=
  if b then m else ret tt.

(** [except KeyboardInterrupt: pass] *)
Definition except_KeyboardInterrupt (m : M unit) : M unit :=
  fun s =>
    match m s with
    | (s', Thr e) => if is_KeyboardInterrupt e then (s', Val tt) else (s', Thr e)
    | r => r
    end.

(** [while True: body], one tick of the script per iteration. *)
Fixpoint while_true (body : Tick -> M unit) (ticks : list Tick) : M unit :=
  fun s =>
    match ticks with
    | [] => (s, Pending)
    | tk :: later =>
        match body tk s with
        | (s', Val _) => while_true body later s'
        | (s', Brk) => (s', Val tt)
        | (s', Thr e) => (s', Thr e)
        | (s', Pending) => (s', Pending)
        end
    end.

(** ** [monitor] *)

(** [x / 1024. ** 2] *)
Definition mb (bytes : Z) : Q := inject_Z bytes / 1048576.

(** Lines 161-166: the status of the root, with the fallback to the
    attribute of old psutil versions. *)
Definition query_status (pr : Proc) : M Status :=
  match status_call pr with
  | Ok s => ret s
  | Exc e =>
      if is_TypeError e then ret (status_attr pr)
      else if is_NoSuchProcess e then brk
      else throw e
  end.

(** [pr_status in [psutil.STATUS_ZOMBIE, psutil.STATUS_DEAD]] *)
Definition zombie_or_dead (s : Status) : bool :=
  match s with
  | STATUS_ZOMBIE | STATUS_DEAD => true
  | _ => false
  end.

(** [duration is not None and current_time - start_time > duration] *)
Definition past_duration (d : option Q) (elapsed : Q) : bool :=
  match d with
  | Some d => Py.gt elapsed d
  | None => false
  end.

(** Lines 179-183: a failure of either query leaves the loop. *)
Definition root_metrics (pr : Proc) : M (Q * MemInfo) :=
  match get_percent pr with
  | Exc e => if is_Exception e then brk else throw e
  | Ok current_cpu =>
      match get_memory pr with
      | Exc e => if is_Exception e then brk else throw e
      | Ok current_mem => ret (current_cpu, current_mem)
      end
  end.

(** Lines 205-211, the body of the loop over the children, on the three
    running totals.  [continue] leaves the totals as they are at that
    point. *)
Definition add_child (totals : Res (Q * Q * Q)) (child : Proc)
  : Res (Q * Q * Q) :=
  match totals with
  | Exc e => Exc e
  | Ok (current_cpu, current_mem_real, current_mem_virtual) =>
      match get_percent child with
      | Exc e =>
          if is_Exception e
          then Ok (current_cpu, current_mem_real, current_mem_virtual)
          else Exc e
      | Ok c =>
          let current_cpu := current_cpu + c in
          match get_memory child with
          | Exc e =>
              if is_Exception e
              then Ok (current_cpu, current_mem_real, current_mem_virtual)
              else Exc e
          | Ok current_mem =>
              Ok (current_cpu,
                  current_mem_real + mb (rss current_mem),
                  current_mem_virtual + mb (vms current_mem))
          end
      end
  end.

(** Lines 203-211. *)
Definition with_children (include : bool) (pr : Proc) (totals : Q * Q * Q)
  : Res (Q * Q * Q) :=
  if include then
    match all_children pr with
    | Exc e => Exc e
    | Ok descendants => fold_left add_child descendants (Ok totals)
    end
  else Ok totals.

(** [time.sleep(interval)] *)
Definition sleep (i : Q) (tk : Tick) : Res unit :=
  if Py.gt 0 i then Exc ValueError else t_sleep tk.

(** Lines 226-232: the six appends, in their order. *)
Definition appends (t c r v ior iow : Q) : list (Log -> Log) :=
  [ fun l => {| times := times l ++ [t]; cpu := cpu l;
                mem_real := mem_real l; mem_virtual := mem_virtual l;
                io := io l; io_read := io_read l; io_write := io_write l |};
    fun l => {| times := times l; cpu := cpu l ++ [c];
                mem_real := mem_real l; mem_virtual := mem_virtual l;
                io := io l; io_read := io_read l; io_write := io_write l |};
    fun l => {| times := times l; cpu := cpu l;
                mem_real := mem_real l ++ [r]; mem_virtual := mem_virtual l;
                io := io l; io_read := io_read l; io_write := io_write l |};
    fun l => {| times := times l; cpu := cpu l;
                mem_real := mem_real l; mem_virtual := mem_virtual l ++ [v];
                io := io l; io_read := io_read l; io_write := io_write l |};
    fun l => {| times := times l; cpu := cpu l;
                mem_real := mem_real l; mem_virtual := mem_virtual l;
                io := io l; io_read := io_read l ++ [ior];
                io_write := io_write l |};
    fun l => {| times := times l; cpu := cpu l;
                mem_real := mem_real l; mem_virtual := mem_virtual l;
                io := io l; io_read := io_read l;
                io_write := io_write l ++ [iow] |} ].

Definition run_appends (fs : list (Log -> Log)) : Log -> Log :=
  fun l => fold_left (fun acc f => f acc) fs l.

Definition record_values (t c r v ior iow : Q) (intr : option nat) : M unit :=
  match intr with
  | None => modify_log (run_appends (appends t c r v ior iow))
  | Some done =>
      modify_log (run_appends (firstn done (appends t c r v ior iow))) ;;
      throw KeyboardInterrupt
  end.

(** Lines 158-232: one iteration of the main event loop. *)
Definition iteration (cfg : Config) (start_time : Q) (tk : Tick) : M unit :=
  let pr := t_proc tk in
  let current_time := t_time tk in
  pr_status <- query_status pr ;;
  when (zombie_or_dead pr_status)
       (emit (EPrint (ProcessFinished (current_time - start_time))) ;; brk) ;;
  when (past_duration (duration cfg) (current_time - start_time)) brk ;;
  cm <- root_metrics pr ;;
  let current_cpu := fst cm in
  let current_mem_real := mb (rss (snd cm)) in
  let current_mem_virtual := mb (vms (snd cm)) in
  counters <- call (io_counters pr) ;;
  r2 <- call (Py.index counters 2) ;;
  let current_io_read := mb r2 in
  r3 <- call (Py.index counters 3) ;;
  let current_io_write := mb r3 in
  totals <- call (with_children (include_children cfg) pr
                    (current_cpu, current_mem_real, current_mem_virtual)) ;;
  let current_cpu := fst (fst totals) in
  let current_mem_real := snd (fst totals) in
  let current_mem_virtual := snd totals in
  when (truthy (logfile cfg))
       (call (t_write tk) ;;
        emit (EWrite (Row (current_time - start_time) current_cpu
                          current_mem_real current_mem_virtual)) ;;
        call (t_flush tk) ;;
        emit EFlush) ;;
  match interval cfg with
  | Some i => call (sleep i tk)
  | None => ret tt
  end ;;
  when (truthy (plot cfg))
       (record_values (current_time - start_time) current_cpu
                      current_mem_real current_mem_virtual
                      current_io_read current_io_write (t_append_intr tk)).

(** [ax.plot(x, y)]: the curve of [y] against [x].  matplotlib refuses
    two lists of unequal length with [ValueError]. *)
Definition plot_curve (x y : list Q) (col : string) : Res Curve :=
  if Nat.eqb (List.length x) (List.length y)
  then Ok {| xs := x; ys := y; color := col |}
  else Exc ValueError.

(** Lines 245-285: the chart, call by call.  [os.cpu_count()] may be
    [None], on which [int] raises [TypeError]. *)
Definition chart (lg : Log) (with_io max_scale : bool) (cpu_count : option Z)
  : Res Chart :=
  match plot_curve (times lg) (cpu lg) "r" with
  | Exc e => Exc e
  | Ok cpu_line =>
      let top :=
        if max_scale then
          match cpu_count with
          | Some n => Ok (inject_Z (100 * n))
          | None => Exc TypeError
          end
        else
          match Py.max (cpu lg) with
          | Ok m => Ok (m * (12 # 10))
          | Exc e => Exc e
          end in
      match top with
      | Exc e => Exc e
      | Ok top =>
          if with_io then
            match plot_curve (times lg) (mem_real lg) "b" with
            | Exc e => Exc e
            | Ok ram =>
            match plot_curve (times lg) (io_read lg) "g" with
            | Exc e => Exc e
            | Ok reads =>
            match plot_curve (times lg) (io_write lg) "m" with
            | Exc e => Exc e
            | Ok writes =>
            match Py.max (mem_real lg) with
            | Exc e => Exc e
            | Ok a =>
            match Py.max (io_read lg) with
            | Exc e => Exc e
            | Ok b =>
            match Py.max (io_write lg) with
            | Exc e => Exc e
            | Ok c =>
                Ok {| left_curve := cpu_line;
                      left_ylim := (0, top);
                      right_curves := [ram; reads; writes];
                      right_ylim := (0, Py.max_from a [b; c] * (12 # 10));
                      right_ylabel := "(MB)";
                      legends := true |}
            end end end end end end
          else
            match plot_curve (times lg) (mem_real lg) "b" with
            | Exc e => Exc e
            | Ok ram =>
            match Py.max (mem_real lg) with
            | Exc e => Exc e
            | Ok a =>
                Ok {| left_curve := cpu_line;
                      left_ylim := (0, top);
                      right_curves := [ram];
                      right_ylim := (0, a * (12 # 10));
                      right_ylabel := "Real Memory (MB)";
                      legends := false |}
            end end
      end
  end.

(** Lines 240-285. *)
Definition render (w : World) (cfg : Config) : M unit :=
  fun s =>
    (c <- call (chart (log s) (include_io cfg) (max_cpu_scale cfg)
                      (w_cpu_count w)) ;;
     call (w_savefig w) ;;
     emit (ESavefig (match plot cfg with Some p => p | None => "" end) c)) s.

(** Lines 153-235: the loop inside [try ... except KeyboardInterrupt]. *)
Definition sampling (w : World) (cfg : Config) : M unit :=
  except_KeyboardInterrupt
    (while_true (iteration cfg (w_start w)) (w_ticks w)).

(** Lines 130-151: the handle, the log file and its header, the empty
    series. *)
Definition setup (w : World) (pid : Z) (cfg : Config) : M unit :=
  call (w_process w) ;;
  emit (EAttach pid) ;;
  when (truthy (logfile cfg))
       (call (w_open w) ;;
        emit (EOpen (match logfile cfg with Some p => p | None => "" end)) ;;
        call (w_header w) ;;
        emit (EWrite Header)) ;;
  modify_log (fun _ => empty_log).

(** Lines 237-285: close the log file, draw the chart. *)
Definition finish (w : World) (cfg : Config) : M unit :=
  when (truthy (logfile cfg)) (call (w_close w) ;; emit EClose) ;;
  when (truthy (plot cfg)) (render w cfg).

(** [monitor] *)
Definition monitor (w : World) (pid : Z) (cfg : Config) : M unit :=
  setup w pid cfg ;;
  sampling w cfg ;;
  finish w cfg.


(** ** [main] *)

(** The options of the command line, after the words have been split and
    the numbers read. *)
Inductive Opt : Type :=
| OptLog (path : string)
| OptPlot (path : string)
| OptDuration (d : Q)
| OptInterval (i : Q)
| OptIncludeChildren
| OptIncludeIo
| OptMaxCpuScale.

(** The namespace of [parser.parse_args()]. *)
Record Args : Type := {
  process_id_or_command : string;
  a_log : option string;
  a_plot : option string;
  a_duration : option Q;
  a_interval : option Q;
  a_include_children : bool;
  a_include_io : bool;
  a_max_cpu_scale : bool
}.

(** No option given: [None] for the valued options, [False] for the
    [store_true] ones. *)
Definition no_options (positional : string) : Args :=
  {| process_id_or_command := positional;
     a_log := None; a_plot := None; a_duration := None; a_interval := None;
     a_include_children := false; a_include_io := false;
     a_max_cpu_scale := false |}.

Definition set_option (a : Args) (o : Opt) : Args :=
  let p := process_id_or_command a in
  match o with
  | OptLog x =>
      {| process_id_or_command := p; a_log := Some x; a_plot := a_plot a;
         a_duration := a_duration a; a_interval := a_interval a;
         a_include_children := a_include_children a;
         a_include_io := a_include_io a;
         a_max_cpu_scale := a_max_cpu_scale a |}
  | OptPlot x =>
      {| process_id_or_command := p; a_log := a_log a; a_plot := Some x;
         a_duration := a_duration a; a_interval := a_interval a;
         a_include_children := a_include_children a;
         a_include_io := a_include_io a;
         a_max_cpu_scale := a_max_cpu_scale a |}
  | OptDuration x =>
      {| process_id_or_command := p; a_log := a_log a; a_plot := a_plot a;
         a_duration := Some x; a_interval := a_interval a;
         a_include_children := a_include_children a;
         a_include_io := a_include_io a;
         a_max_cpu_scale := a_max_cpu_scale a |}
  | OptInterval x =>
      {| process_id_or_command := p; a_log := a_log a; a_plot := a_plot a;
         a_duration := a_duration a; a_interval := Some x;
         a_include_children := a_include_children a;
         a_include_io := a_include_io a;
         a_max_cpu_scale := a_max_cpu_scale a |}
  | OptIncludeChildren =>
      {| process_id_or_command := p; a_log := a_log a; a_plot := a_plot a;
         a_duration := a_duration a; a_interval := a_interval a;
         a_include_children := true;
         a_include_io := a_include_io a;
         a_max_cpu_scale := a_max_cpu_scale a |}
  | OptIncludeIo =>
      {| process_id_or_command := p; a_log := a_log a; a_plot := a_plot a;
         a_duration := a_duration a; a_interval := a_interval a;
         a_include_children := a_include_children a;
         a_include_io := true;
         a_max_cpu_scale := a_max_cpu_scale a |}
  | OptMaxCpuScale =>
      {| process_id_or_command := p; a_log := a_log a; a_plot := a_plot a;
         a_duration := a_duration a; a_interval := a_interval a;
         a_include_children := a_include_children a;
         a_include_io := a_include_io a;
         a_max_cpu_scale := true |}
  end.

Definition parse_args (positional : string) (opts : list Opt) : Args :=
  fold_left set_option opts (no_options positional).

(** The keyword arguments of the call of [monitor] in [main]. *)
Definition config_of (args : Args) : Config :=
  {| logfile := a_log args; plot := a_plot args;
     duration := a_duration args; interval := a_interval args;
     include_children := a_include_children args;
     include_io := a_include_io args;
     max_cpu_scale := a_max_cpu_scale args |}.

(** Lines 104-114: attach to a process id, or start the command.  The
    result is the pid and whether [sprocess] is not [None]. *)
Definition attach_or_spawn (w : World) (args : Args) : M (Z * bool) :=
  match Py.int (process_id_or_command args) with
  | Some pid =>
      emit (EPrint (Attaching pid)) ;;
      ret (pid, false)
  | None =>
      let command := process_id_or_command args in
      emit (EPrint (StartingUp command)) ;;
      pid <- call (w_popen w) ;;
      emit (ESpawn command pid) ;;
      ret (pid, true)
  end.

(** [main] *)
Definition main (w : World) (positional : string) (opts : list Opt) : M unit :=
  let args := parse_args positional opts in
  target <- attach_or_spawn w args ;;
  monitor w (fst target) (config_of args) ;;
  when (snd target) (emit (EKill (fst target))).

Definition initial : St := {| trace := []; log := empty_log |}.

(** ** What is observed of a run *)

(** The data rows written to the log file. *)
Definition is_row (ev : Event) : bool :=
  match ev with
  | EWrite (Row _ _ _ _) => true
  | _ => false
  end.

Definition rows (tr : list Event) : nat := List.length (filter is_row tr).

(** The lines of the log file, header included. *)
Definition file_lines (tr : list Event) : list Line :=
  flat_map (fun ev => match ev with EWrite l => [l] | _ => [] end) tr.

(** Everything but the chart. *)
Definition is_chart (ev : Event) : bool :=
  match ev with
  | ESavefig _ _ => true
  | _ => false
  end.


Definition is_print (ev : Event) : bool :=
  match ev with
  | EPrint _ => true
  | _ => false
  end.

(** The lengths of the six lists that the loop appends to. *)
Definition widths (lg : Log) : list nat :=
  [ List.length (times lg); List.length (cpu lg);
    List.length (mem_real lg); List.length (mem_virtual lg);
    List.length (io_read lg); List.length (io_write lg) ].

(** The series holds [n] samples: each list has [n] items. *)
Definition holds (lg : Log) (n : nat) : Prop :=
  Forall (fun k => k = n) (widths lg).

(** How an iteration ends; it does not depend on the state it starts
    from ([iteration_flow] below). *)
Definition flow (cfg : Config) (start_time : Q) (tk : Tick) : Ctl unit :=
  snd (iteration cfg start_time tk initial).

(** The iteration runs to its end and the loop goes on. *)
Definition completes (cfg : Config) (start_time : Q) (tk : Tick) : bool :=
  match flow cfg start_time tk with
  | Val _ => true
  | _ => false
  end.

(** The status that the status check of an iteration sees, if the query
    gives one. *)
Definition seen_status (pr : Proc) : option Status :=
  match query_status pr initial with
  | (_, Val s) => Some s
  | _ => None
  end.

(** How many appends an iteration that reaches them performs. *)
Definition appended (intr : option nat) : nat :=
  match intr with
  | None => 6%nat
  | Some done => done
  end.


(** The contribution of the descendants to a sample: the CPU percentage of
    each one whose CPU query answers, the memory of each one whose CPU and
    memory queries both answer (the memory query is only made after the
    CPU query has answered). *)
Definition cpu_share (d : Proc) : list Q :=
  match get_percent d with
  | Ok c => [c]
  | Exc _ => []
  end.

Definition mem_share (field : MemInfo -> Z) (d : Proc) : list Q :=
  match get_percent d, get_memory d with
  | Ok _, Ok m => [mb (field m)]
  | _, _ => []
  end.

Definition total (l : list Q) : Q := fold_right Qplus 0 l.


(** Every list of [b] has at least the items of [a] and at most [k]
    more. *)
Definition grown (k : nat) (a b : Log) : Prop :=
  Forall2 (fun n' n => (n <= n' <= n + k)%nat) (widths b) (widths a).

(** The elapsed time has passed the duration check. *)
Definition within (cfg : Config) (t : Q) : Prop :=
  past_duration (duration cfg) t = false.

(** The paths handed to [open] and [savefig]. *)
Definition log_path (cfg : Config) : string :=
  match logfile cfg with Some p => p | None => "" end.

Definition plot_path (cfg : Config) : string :=
  match plot cfg with Some p => p | None => "" end.

(** [s] after the events [evs]. *)
Definition push (s : St) (evs : list Event) : St :=
  {| trace := trace s ++ evs; log := log s |}.


Definition is_close (ev : Event) : bool :=
  match ev with
  | EClose => true
  | _ => false
  end.

Definition is_kill (ev : Event) : bool :=
  match ev with
  | EKill _ => true
  | _ => false
  end.

Definition is_spawn (ev : Event) : bool :=
  match ev with
  | ESpawn _ _ => true
  | _ => false
  end.


(** ** The tree of processes *)

(** The list inside an answer of [children()]; none when it failed. *)
Definition offspring (r : Res (list Proc)) : list Proc :=
  match r with
  | Ok cs => cs
  | Exc _ => []
  end.

(** The children that [all_children] goes through at one handle. *)
Definition kids (pr : Proc) : list Proc :=
  match children pr with
  | Ok cs => cs
  | Exc e => if is_AttributeError e then offspring (get_children pr) else []
  end.

(** The exception that leaves the [try] statement of [all_children] at
    one handle, if any. *)
Definition escapes (pr : Proc) : option Exn :=
  match children pr with
  | Ok _ => None
  | Exc e =>
      if is_AttributeError e then
        match get_children pr with
        | Ok _ => None
        | Exc e' => Some e'
        end
      else if is_Exception e then None
      else Some e
  end.

(** The [for] loop of [all_children] over a list of children. *)
Fixpoint walk (cs : list Proc) : Res (list Proc) :=
  match cs with
  | [] => Ok []
  | child :: rest =>
      match all_children child with
      | Exc e => Exc e
      | Ok below =>
          match walk rest with
          | Exc e => Exc e
          | Ok after => Ok (child :: below ++ after)
          end
      end
  end.

(** [d] is below [p] in the tree that the walk sees. *)
Inductive Reach (p : Proc) : Proc -> Prop :=
| reach_child c : In c (kids p) -> Reach p c
| reach_below c d : In c (kids p) -> Reach c d -> Reach p d.

(** Induction over a process and the processes in its answers. *)
Fixpoint Proc_nested_ind (P : Proc -> Prop)
  (H : forall pr,
      Forall P (offspring (children pr)) ->
      Forall P (offspring (get_children pr)) -> P pr)
  (pr : Proc) {struct pr} : P pr :=
  match pr with
  | MkProc cp gcp mi gmi io sc sa ch gch =>
      let all :=
        fix all (l : list Proc) : Forall P l :=
          match l with
          | [] => Forall_nil P
          | c :: r => Forall_cons c (Proc_nested_ind H c) (all r)
          end in
      H (MkProc cp gcp mi gmi io sc sa ch gch)
        (match ch as r return Forall P (offspring r) with
         | Ok cs => all cs
         | Exc _ => Forall_nil P
         end)
        (match gch as r return Forall P (offspring r) with
         | Ok cs => all cs
         | Exc _ => Forall_nil P
         end)
  end.

(** ** More observations *)

(** The events of the loop: the message of a finished process and, when
    logging, rows and flushes. *)
Definition loop_event (cfg : Config) (ev : Event) : bool :=
  match ev with
  | EPrint (ProcessFinished _) => true
  | EWrite (Row _ _ _ _) => truthy (logfile cfg)
  | EFlush => truthy (logfile cfg)
  | _ => false
  end.

(** The events of [monitor]: the handle on [pid]; when logging, the log
    file; when charting, the chart; the message of a finished process. *)
Definition monitor_event (pid : Z) (cfg : Config) (ev : Event) : bool :=
  match ev with
  | EAttach p => Z.eqb p pid
  | EOpen _ => truthy (logfile cfg)
  | EWrite _ => truthy (logfile cfg)
  | EFlush => truthy (logfile cfg)
  | EClose => truthy (logfile cfg)
  | ESavefig _ _ => truthy (plot cfg)
  | EPrint (ProcessFinished _) => true
  | _ => false
  end.

(** The events that touch the log file. *)
Definition is_file_event (ev : Event) : bool :=
  match ev with
  | EOpen _ | EWrite _ | EFlush | EClose => true
  | _ => false
  end.

Definition is_data (l : Line) : bool :=
  match l with
  | Row _ _ _ _ => true
  | Header => false
  end.

(** The series, row by row: what the log file shows of it. *)
Fixpoint zip_rows (ts cs rs vs : list Q) : list Line :=
  match ts, cs, rs, vs with
  | t :: ts, c :: cs, r :: rs, v :: vs => Row t c r v :: zip_rows ts cs rs vs
  | _, _, _, _ => []
  end.

Definition series_rows (lg : Log) : list Line :=
  zip_rows (times lg) (cpu lg) (mem_real lg) (mem_virtual lg).

(** The elapsed time of an iteration. *)
Definition elapsed (start_time : Q) (tk : Tick) : Q :=
  t_time tk - start_time.

(** [cfg] with another interval. *)
Definition set_interval (i : option Q) (cfg : Config) : Config :=
  {| logfile := logfile cfg; plot := plot cfg; duration := duration cfg;
     interval := i; include_children := include_children cfg;
     include_io := include_io cfg; max_cpu_scale := max_cpu_scale cfg |}.

(** The data rows of the log file are the series, and the series is
    whole. *)
Definition in_step (s : St) : Prop :=
  (exists n, holds (log s) n) /\
  filter is_data (file_lines (trace s)) = series_rows (log s).

(** ** Whole and half samples *)


(** The CPU percentage of a descendant both of whose queries answer. *)
Definition whole_cpu (d : Proc) : list Q :=
  match get_percent d, get_memory d with
  | Ok c, Ok _ => [c]
  | _, _ => []
  end.

(** The CPU percentage of a descendant whose CPU query answers and whose
    memory query then fails. *)
Definition stray_cpu (d : Proc) : list Q :=
  match get_percent d, get_memory d with
  | Ok c, Exc _ => [c]
  | _, _ => []
  end.

(** The elapsed times in the data rows of the log file. *)
Definition row_time (l : Line) : list Q :=
  match l with
  | Row t _ _ _ => [t]
  | Header => []
  end.

Definition logged_times (tr : list Event) : list Q :=
  flat_map row_time (file_lines tr).

(** What the status check reads: the answer of [pr.status()], or the
    attribute when the call raises [TypeError]. *)
Definition status_read (pr : Proc) (status : Status) : Prop :=
  status_call pr = Ok status \/
  (status_call pr = Exc TypeError /\ status_attr pr = status).

(** ** Scenarios *)

Module Scenario.

Definition MiB : Z := 1048576.

(** A process that answers every query: 2 MiB resident, 4 MiB virtual,
    3 MiB read, 1 MiB written. *)
Definition proc (status : Status) (percent : Q) (kids : list Proc) : Proc :=
  {| cpu_percent := Ok percent;
     get_cpu_percent := Exc AttributeError;
     memory_info := Ok {| rss := 2 * MiB; vms := 4 * MiB |};
     get_memory_info := Exc AttributeError;
     io_counters := Ok [7; 9; 3 * MiB; MiB; 11; 13]%Z;
     status_call := Ok status;
     status_attr := status;
     children := Ok kids;
     get_children := Exc AttributeError |}.

(** A child that exits between its CPU query and its memory query. *)
Definition vanishing (percent : Q) : Proc :=
  {| cpu_percent := Ok percent;
     get_cpu_percent := Exc AttributeError;
     memory_info := Exc NoSuchProcess;
     get_memory_info := Exc AttributeError;
     io_counters := Exc NoSuchProcess;
     status_call := Ok STATUS_RUNNING;
     status_attr := STATUS_RUNNING;
     children := Ok [];
     get_children := Exc AttributeError |}.

(** A root whose I/O counters may not be read. *)
Definition io_denied : Proc :=
  {| cpu_percent := Ok 10;
     get_cpu_percent := Exc AttributeError;
     memory_info := Ok {| rss := 2 * MiB; vms := 4 * MiB |};
     get_memory_info := Exc AttributeError;
     io_counters := Exc AccessDenied;
     status_call := Ok STATUS_RUNNING;
     status_attr := STATUS_RUNNING;
     children := Ok [];
     get_children := Exc AttributeError |}.

(** A root whose memory may not be read. *)
Definition mem_denied : Proc :=
  {| cpu_percent := Ok 10;
     get_cpu_percent := Exc AttributeError;
     memory_info := Exc AccessDenied;
     get_memory_info := Exc AttributeError;
     io_counters := Ok [7; 9; 3 * MiB; MiB; 11; 13]%Z;
     status_call := Ok STATUS_RUNNING;
     status_attr := STATUS_RUNNING;
     children := Ok [];
     get_children := Exc AttributeError |}.

Definition tick (now : Q) (pr : Proc) : Tick :=
  {| t_time := now; t_proc := pr; t_write := Ok tt; t_flush := Ok tt;
     t_sleep := Ok tt; t_append_intr := None |}.



(** Monitoring starts at time 100; every call outside the loop answers. *)
Definition world (ticks : list Tick) : World :=
  {| w_popen := Ok 4242%Z; w_process := Ok tt; w_start := 100;
     w_open := Ok tt; w_header := Ok tt; w_ticks := ticks;
     w_close := Ok tt; w_cpu_count := Some 4%Z; w_savefig := Ok tt |}.

(** The log file cannot be opened. *)
Definition world_unwritable (ticks : list Tick) : World :=
  {| w_popen := Ok 4242%Z; w_process := Ok tt; w_start := 100;
     w_open := Exc OSError; w_header := Ok tt; w_ticks := ticks;
     w_close := Ok tt; w_cpu_count := Some 4%Z; w_savefig := Ok tt |}.


Definition running : Proc := proc STATUS_RUNNING 10 [].
Definition zombie : Proc := proc STATUS_ZOMBIE 0 [].

(** Running at the first three status checks, a zombie at the fourth. *)
Definition three_then_zombie : list Tick :=
  [tick 101 running; tick 102 running; tick 103 running; tick 104 zombie].

(** A dead process under an old psutil, where [status] is an attribute:
    calling it raises [TypeError]. *)
Definition dead : Proc :=
  {| cpu_percent := Exc AttributeError;
     get_cpu_percent := Exc NoSuchProcess;
     memory_info := Exc AttributeError;
     get_memory_info := Exc NoSuchProcess;
     io_counters := Exc NoSuchProcess;
     status_call := Exc TypeError;
     status_attr := STATUS_DEAD;
     children := Exc AttributeError;
     get_children := Exc NoSuchProcess |}.

(** Running at the first two status checks, dead at the third. *)
Definition two_then_dead : list Tick :=
  [tick 101 running; tick 102 running; tick 103 dead].

(** Log only. *)
Definition log_only (d : option Q) : Config :=
  {| logfile := Some "log.txt"%string; plot := None; duration := d;
     interval := None; include_children := false; include_io := true;
     max_cpu_scale := false |}.

(** A root at 10% with two children at 15% each. *)
Definition family : Proc :=
  proc STATUS_RUNNING 10
       [proc STATUS_RUNNING 15 []; proc STATUS_RUNNING 15 []].

(** A root at 10% with one child at 15% that exits mid-query. *)
Definition bereaved : Proc :=
  proc STATUS_RUNNING 10 [vanishing 15].

Definition cfg (log_to plot_to : option string) (d i : option Q)
  (kids with_io max_scale : bool) : Config :=
  {| logfile := log_to; plot := plot_to; duration := d; interval := i;
     include_children := kids; include_io := with_io;
     max_cpu_scale := max_scale |}.

(** Log and chart, nothing else. *)
Definition both : Config :=
  cfg (Some "log.txt"%string) (Some "plot.png"%string) None None
      false false false.

End Scenario.

(** ** A tree of processes *)

Module Clan.

Definition node (percent : Q) (answer fallback : Res (list Proc)) : Proc :=
  {| cpu_percent := Ok percent;
     get_cpu_percent := Exc AttributeError;
     memory_info := Ok {| rss := Scenario.MiB; vms := Scenario.MiB |};
     get_memory_info := Exc AttributeError;
     io_counters := Ok [0; 0; 0; 0]%Z;
     status_call := Ok STATUS_RUNNING;
     status_attr := STATUS_RUNNING;
     children := answer;
     get_children := fallback |}.

Definition grandchild : Proc := node 1 (Ok []) (Exc AttributeError).

Definition first : Proc := node 2 (Ok [grandchild]) (Exc AttributeError).

(** [children()] is denied: swallowed, the fallback is not asked. *)
Definition second : Proc := node 3 (Exc AccessDenied) (Ok [grandchild]).

Definition third : Proc := node 4 (Ok []) (Exc AttributeError).

Definition root : Proc :=
  node 10 (Ok [first; second; third]) (Exc AttributeError).

(** An old psutil without [children()], and a process that is gone when
    the fallback is asked. *)
Definition gone : Proc := node 6 (Exc AttributeError) (Exc NoSuchProcess).

Definition root_with_gone : Proc :=
  node 10 (Ok [first; gone; third]) (Exc AttributeError).

End Clan.

(** ** One iteration *)

(** Case analysis along the control flow of a statement: split on the
    innermost scrutinee that is not itself a [match]. *)
Ltac run_step :=
  match goal with
  | |- context [match ?x with _ => _ end] =>
      match x with
      | context [match _ with _ => _ end] => fail 1
      | _ => destruct x eqn:?
      end
  | |- context [if ?x then _ else _] => destruct x eqn:?
  end.

Lemma record_values_eq t c r v ior iow intr s :
  record_values t c r v ior iow intr s =
  ({| trace := trace s;
      log := run_appends (firstn (appended intr) (appends t c r v ior iow))
                         (log s) |},
   match intr with
   | None => Val tt
   | Some _ => Thr KeyboardInterrupt
   end).
Proof. destruct intr; reflexivity. Qed.

Ltac open_iteration :=
  unfold iteration, query_status, root_metrics, when, call, bind, brk,
    throw, ret, emit, modify_log;
  repeat (run_step; cbn [fst snd trace log]);
  rewrite ?record_values_eq.

Ltac trace_shape :=
  first [symmetry; apply app_nil_r | rewrite <- ?app_assoc; reflexivity].

Lemma rows_app a b : rows (a ++ b) = (rows a + rows b)%nat.
Proof. unfold rows. now rewrite filter_app, length_app. Qed.

(** The flow of an iteration is the same from every state. *)
Lemma iteration_flow cfg st tk s s' c :
  iteration cfg st tk s = (s', c) -> flow cfg st tk = c.
Proof.
  unfold flow. open_iteration.
  all: intros H; inversion H; subst; reflexivity.
Qed.

(** An iteration never ends [Pending]: only the loop does. *)
Lemma iteration_not_pending cfg st tk : flow cfg st tk <> Pending.
Proof.
  unfold flow. open_iteration.
  all: cbn; try discriminate.
  all: destruct (t_append_intr tk); discriminate.
Qed.

(** What an iteration that runs to its end has done. *)
Lemma iteration_val cfg st tk s s' :
  iteration cfg st tk s = (s', Val tt) ->
  exists c0 m counters r2 r3 totals,
    get_percent (t_proc tk) = Ok c0 /\
    get_memory (t_proc tk) = Ok m /\
    io_counters (t_proc tk) = Ok counters /\
    Py.index counters 2 = Ok r2 /\
    Py.index counters 3 = Ok r3 /\
    with_children (include_children cfg) (t_proc tk)
                  (c0, mb (rss m), mb (vms m)) = Ok totals /\
    past_duration (duration cfg) (t_time tk - st) = false /\
    trace s' = trace s ++
      (if truthy (logfile cfg)
       then [EWrite (Row (t_time tk - st) (fst (fst totals))
                         (snd (fst totals)) (snd totals)); EFlush]
       else []) /\
    log s' =
      (if truthy (plot cfg)
       then run_appends (appends (t_time tk - st) (fst (fst totals))
                                 (snd (fst totals)) (snd totals)
                                 (mb r2) (mb r3)) (log s)
       else log s).
Proof.
  unfold iteration, query_status, root_metrics, record_values, when, call,
    bind, brk, throw, ret, emit, modify_log.
  repeat (run_step; simpl); intros H; try discriminate H.
  all: inversion H; subst; clear H; simpl.
  all: do 6 eexists; repeat (split; [first [eassumption | reflexivity]|]).
  all: simpl; rewrite ?app_nil_r, <- ?app_assoc; simpl;
    try (split; reflexivity); try reflexivity.
Qed.

(** What an iteration has done, however it ends: it has added events, at
    most one of them a row, and has performed the first [j] appends of one
    sample; appends only come after the duration check has passed and,
    when logging, after the row of that sample has been written. *)
Lemma iteration_shape cfg st tk s s' c :
  iteration cfg st tk s = (s', c) ->
  exists tr j cp r v ior iow,
    trace s' = trace s ++ tr /\
    log s' = run_appends
               (firstn j (appends (t_time tk - st) cp r v ior iow)) (log s) /\
    rows tr = (if truthy (logfile cfg) then rows tr else 0%nat) /\
    (rows tr <= 1)%nat /\
    Forall (fun ev => is_print ev = true ->
                      ev = EPrint (ProcessFinished (t_time tk - st)) /\
                      c = Brk) tr /\
    (j = 0%nat \/
     past_duration (duration cfg) (t_time tk - st) = false /\
     truthy (plot cfg) = true /\
     (truthy (logfile cfg) = true -> rows tr = 1%nat)).
Proof.
  open_iteration.
  all: intros H; inversion H; subst; clear H; cbn [trace log].
  all: eexists; first
    [ exists 0%nat, 0, 0, 0, 0, 0; split;
      [trace_shape | split; [reflexivity|]]
    | do 6 eexists; split; [trace_shape | split; [reflexivity|]] ].
  all: cbn; repeat split; auto; try lia.
  all: repeat constructor; cbn; intros; try discriminate; auto.
Qed.

(** ** The appends *)

(** The first [j] appends of a sample, list by list. *)
Lemma run_firstn_appends j t c r v ior iow lg :
  let lg' := run_appends (firstn j (appends t c r v ior iow)) lg in
  times lg' = times lg ++ (if Nat.ltb 0 j then [t] else []) /\
  cpu lg' = cpu lg ++ (if Nat.ltb 1 j then [c] else []) /\
  mem_real lg' = mem_real lg ++ (if Nat.ltb 2 j then [r] else []) /\
  mem_virtual lg' = mem_virtual lg ++ (if Nat.ltb 3 j then [v] else []) /\
  io_read lg' = io_read lg ++ (if Nat.ltb 4 j then [ior] else []) /\
  io_write lg' = io_write lg ++ (if Nat.ltb 5 j then [iow] else []) /\
  io lg' = io lg.
Proof.
  cbv zeta.
  do 6 (destruct j as [|j]; [cbn; rewrite ?app_nil_r; repeat split|]).
  cbn. rewrite firstn_nil. cbn. repeat split.
Qed.

Ltac open_grown :=
  unfold grown, holds, widths in *;
  repeat match goal with
         | H : Forall2 _ (_ :: _) (_ :: _) |- _ => inversion H; clear H; subst
         | H : Forall2 _ [] [] |- _ => clear H
         | H : Forall _ (_ :: _) |- _ => inversion H; clear H; subst
         | H : Forall _ [] |- _ => clear H
         end.

Lemma grown_refl a : grown 0 a a.
Proof. unfold grown, widths. repeat constructor; lia. Qed.

Lemma grown_trans k1 k2 a b c :
  grown k1 a b -> grown k2 b c -> grown (k1 + k2) a c.
Proof. intros. open_grown. repeat constructor; lia. Qed.

Lemma grown_weaken k1 k2 a b : (k1 <= k2)%nat -> grown k1 a b -> grown k2 a b.
Proof. intros. open_grown. repeat constructor; lia. Qed.

Lemma grown_firstn j t c r v ior iow lg :
  grown (if Nat.eqb j 0 then 0 else 1) lg
        (run_appends (firstn j (appends t c r v ior iow)) lg).
Proof.
  destruct (run_firstn_appends j t c r v ior iow lg)
    as (H1 & H2 & H3 & H4 & H5 & H6 & _).
  unfold grown, widths. rewrite H1, H2, H3, H4, H5, H6, !length_app.
  do 6 (destruct j as [|j]; [cbn; repeat constructor; lia|]).
  cbn; repeat constructor; lia.
Qed.

Lemma holds_appends n t c r v ior iow lg :
  holds lg n -> holds (run_appends (appends t c r v ior iow) lg) (S n).
Proof.
  intros H. open_grown. cbn. rewrite !length_app. cbn.
  repeat constructor; lia.
Qed.

Lemma holds_empty : holds empty_log 0.
Proof. unfold holds, widths. cbn. repeat constructor. Qed.

(** ** The loop *)

Section Loop.

Variable cfg : Config.
Variable st : Q.

(** After iterations that all run to their end: one row and one sample
    each, nothing printed, and the loop is still running. *)
Lemma while_true_completes pre :
  Forall (fun t => completes cfg st t = true) pre ->
  forall s later,
  exists s1 tr,
    while_true (iteration cfg st) pre s = (s1, Pending) /\
    while_true (iteration cfg st) (pre ++ later) s =
      while_true (iteration cfg st) later s1 /\
    trace s1 = trace s ++ tr /\
    rows tr = (if truthy (logfile cfg) then List.length pre else 0%nat) /\
    Forall (fun ev => is_print ev = false) tr /\
    (truthy (plot cfg) = false -> log s1 = log s) /\
    (truthy (plot cfg) = true ->
     forall n, holds (log s) n -> holds (log s1) (n + List.length pre)).
Proof.
  induction 1 as [|tk pre Htk Hpre IH]; intros s later.
  - exists s, []. cbn. rewrite app_nil_r.
    repeat split; auto.
    + now destruct (truthy (logfile cfg)).
    + intros _ n Hn. now rewrite Nat.add_0_r.
  - destruct (iteration cfg st tk s) as [s' c] eqn:E.
    pose proof (iteration_flow _ _ _ _ E) as F.
    unfold completes in Htk. rewrite F in Htk.
    destruct c as [[]| | |]; try discriminate.
    destruct (iteration_val _ _ _ _ E)
      as (c0 & m & cs & r2 & r3 & tot & _ & _ & _ & _ & _ & _ & _ & Ht & Hl).
    destruct (IH s' later) as (s1 & tr & R1 & R2 & T & Rw & Pr & L0 & L1).
    exists s1, ((if truthy (logfile cfg)
                 then [EWrite (Row (t_time tk - st) (fst (fst tot))
                                   (snd (fst tot)) (snd tot)); EFlush]
                 else []) ++ tr).
    cbn [while_true app]. rewrite E.
    split; [exact R1|]. split; [exact R2|].
    split; [rewrite T, Ht, app_assoc; reflexivity|].
    split; [rewrite rows_app, Rw; now destruct (truthy (logfile cfg))|].
    split; [apply Forall_app; split; [|exact Pr];
            destruct (truthy (logfile cfg)); repeat constructor|].
    split.
    + intros Hp. rewrite (L0 Hp), Hl, Hp. reflexivity.
    + intros Hp n Hn. cbn [List.length].
      replace (n + S (List.length pre))%nat
        with (S n + List.length pre)%nat by lia.
      apply (L1 Hp). rewrite Hl, Hp. now apply holds_appends.
Qed.

(** Whatever the script and however the loop ends: events are only added;
    no list of the series shrinks; when logging, no list has grown by more
    than the number of rows written; every recorded time has passed the
    duration check. *)
Lemma while_true_shape ticks :
  forall s s' c,
    while_true (iteration cfg st) ticks s = (s', c) ->
    exists tr,
      trace s' = trace s ++ tr /\
      (truthy (logfile cfg) = true -> grown (rows tr) (log s) (log s')) /\
      (Forall (within cfg) (times (log s)) ->
       Forall (within cfg) (times (log s'))).
Proof.
  induction ticks as [|tk later IH]; intros s s' c H.
  - cbn in H. inversion H; subst. exists []. rewrite app_nil_r.
    split; [reflexivity|]. split; [intros _; apply grown_refl | auto].
  - cbn [while_true] in H.
    destruct (iteration cfg st tk s) as [s1 c1] eqn:E.
    destruct (iteration_shape _ _ _ _ E)
      as (tr & j & cp & r & v & ior & iow & Ht & Hl & _ & Hle & _ & Hj).
    assert (G : truthy (logfile cfg) = true -> grown (rows tr) (log s) (log s1)).
    { intros Hlog. rewrite Hl.
      eapply grown_weaken; [|apply grown_firstn].
      destruct Hj as [->|(_ & _ & Hr)]; [cbn; lia|].
      rewrite (Hr Hlog). destruct (Nat.eqb j 0); lia. }
    assert (W : Forall (within cfg) (times (log s)) ->
                Forall (within cfg) (times (log s1))).
    { intros Hw. rewrite Hl.
      destruct (run_firstn_appends j (t_time tk - st) cp r v ior iow (log s))
        as (H1 & _). rewrite H1. apply Forall_app. split; [exact Hw|].
      destruct Hj as [->|(Hd & _ & _)]; [constructor|].
      destruct (Nat.ltb 0 j); repeat constructor. exact Hd. }
    destruct c1 as [[]| | |].
    + destruct (IH _ _ _ H) as (tr2 & Ht2 & G2 & W2).
      exists (tr ++ tr2). rewrite Ht2, Ht, app_assoc.
      split; [reflexivity|]. split; [|auto].
      intros Hlog. rewrite rows_app. eapply grown_trans; eauto.
    + inversion H; subst. exists tr. auto.
    + inversion H; subst. exists tr. auto.
    + inversion H; subst. exists tr. auto.
Qed.

(** The loop has ended by the first iteration that does not run to its
    end. *)
Lemma while_true_ends ticks :
  Exists (fun t => completes cfg st t = false) ticks ->
  forall s, snd (while_true (iteration cfg st) ticks s) <> Pending.
Proof.
  induction ticks as [|tk later IH]; intros Hex s.
  - inversion Hex.
  - cbn [while_true].
    destruct (iteration cfg st tk s) as [s1 c1] eqn:E.
    pose proof (iteration_flow _ _ _ _ E) as F.
    pose proof (@iteration_not_pending cfg st tk) as NP.
    destruct c1 as [[]| | |]; cbn; try discriminate.
    + apply IH. inversion Hex; subst; [|assumption].
      unfold completes in *. rewrite F in *. discriminate.
    + congruence.
Qed.

End Loop.

(** ** The exits of the loop *)

Lemma seen_status_query pr status :
  seen_status pr = Some status ->
  forall s, query_status pr s = (s, Val status).
Proof.
  unfold seen_status, query_status, ret, brk, throw. intros H s.
  destruct (status_call pr) as [a|e]; [now inversion H|].
  destruct (is_TypeError e); [now inversion H|].
  destruct (is_NoSuchProcess e); discriminate.
Qed.

Lemma compare_gt x y : Py.gt x y = true <-> y < x.
Proof.
  unfold Py.gt. rewrite negb_true_iff, <- not_true_iff_false, Qle_bool_iff.
  split; [apply Qnot_le_lt | apply Qlt_not_le].
Qed.

Lemma compare_not_gt x y : Py.gt x y = false <-> x <= y.
Proof. unfold Py.gt. now rewrite negb_false_iff, Qle_bool_iff. Qed.

Section Exits.

Variable cfg : Config.
Variable st : Q.
Variable tk : Tick.

(** Line 169: a zombie or dead root ends the loop with the message. *)
Lemma iteration_finished status s :
  seen_status (t_proc tk) = Some status ->
  zombie_or_dead status = true ->
  iteration cfg st tk s =
    ({| trace := trace s ++ [EPrint (ProcessFinished (t_time tk - st))];
        log := log s |}, Brk).
Proof.
  intros Hs Hz. unfold iteration, bind.
  rewrite (seen_status_query _ Hs). rewrite Hz. reflexivity.
Qed.


(** Line 175: the duration check ends the loop, silently. *)
Lemma iteration_duration status s :
  seen_status (t_proc tk) = Some status ->
  zombie_or_dead status = false ->
  past_duration (duration cfg) (t_time tk - st) = true ->
  iteration cfg st tk s = (s, Brk).
Proof.
  intros Hs Hz Hd. unfold iteration, bind.
  rewrite (seen_status_query _ Hs). rewrite Hz. cbn. rewrite Hd.
  reflexivity.
Qed.



(** An I/O query of the root that fails is not caught. *)
Lemma iteration_io_failed status c m e s :
  seen_status (t_proc tk) = Some status ->
  zombie_or_dead status = false ->
  past_duration (duration cfg) (t_time tk - st) = false ->
  get_percent (t_proc tk) = Ok c ->
  get_memory (t_proc tk) = Ok m ->
  io_counters (t_proc tk) = Exc e ->
  iteration cfg st tk s = (s, Thr e).
Proof.
  intros Hs Hz Hd Hc Hm He. unfold iteration, bind, root_metrics.
  rewrite (seen_status_query _ Hs). rewrite Hz. cbn. rewrite Hd. cbn.
  rewrite Hc, Hm. cbn. rewrite He. reflexivity.
Qed.


End Exits.

(** The loop inside its handler: [break] and the interrupt both end it
    normally. *)
Lemma sampling_after_completes w cfg pre tk later s0 :
  w_ticks w = pre ++ tk :: later ->
  Forall (fun t => completes cfg (w_start w) t = true) pre ->
  exists s_pre tr,
    while_true (iteration cfg (w_start w)) pre s0 = (s_pre, Pending) /\
    trace s_pre = trace s0 ++ tr /\
    rows tr = (if truthy (logfile cfg) then List.length pre else 0%nat) /\
    Forall (fun ev => is_print ev = false) tr /\
    (truthy (plot cfg) = false -> log s_pre = log s0) /\
    (truthy (plot cfg) = true ->
     forall n, holds (log s0) n -> holds (log s_pre) (n + List.length pre)) /\
    forall s c,
      iteration cfg (w_start w) tk s_pre = (s, c) ->
      sampling w cfg s0 =
        match c with
        | Val _ =>
            except_KeyboardInterrupt
              (while_true (iteration cfg (w_start w)) later) s
        | Brk => (s, Val tt)
        | Thr e => if is_KeyboardInterrupt e then (s, Val tt) else (s, Thr e)
        | Pending => (s, Pending)
        end.
Proof.
  intros Hw Hpre.
  destruct (@while_true_completes _ _ _ Hpre s0 (tk :: later))
    as (s1 & tr & R1 & R2 & T & Rw & Pr & L0 & L1).
  exists s1, tr. repeat (split; [assumption|]).
  intros s c E. unfold sampling, except_KeyboardInterrupt.
  rewrite Hw, R2. cbn [while_true]. rewrite E.
  destruct c as [[]| |e|]; try reflexivity.
Qed.

(** ** Process end *)

Lemma status_read_seen pr status :
  status_read pr status -> seen_status pr = Some status.
Proof.
  unfold status_read, seen_status, query_status.
  intros [-> | (-> & <-)]; reflexivity.
Qed.

(** C7.  When the status check of iteration k reads [STATUS_ZOMBIE] or
    [STATUS_DEAD] -- as the answer of [pr.status()], or as the attribute
    [pr.status] when calling it raises [TypeError] -- after k-1 iterations
    that ran to their end, the loop ends normally; its last action is to
    print "Process finished" with the elapsed time of that iteration; the
    series is the one the k-1 earlier iterations left, with exactly k-1
    samples when charting, and the log has exactly k-1 rows when
    logging. *)
Theorem zombie_or_dead_ends_loop_without_sample
  w cfg pre tk later status s0 :
  w_ticks w = pre ++ tk :: later ->
  Forall (fun t => completes cfg (w_start w) t = true) pre ->
  status_read (t_proc tk) status ->
  status = STATUS_ZOMBIE \/ status = STATUS_DEAD ->
  holds (log s0) 0 ->
  exists s_pre s,
    while_true (iteration cfg (w_start w)) pre s0 = (s_pre, Pending) /\
    sampling w cfg s0 = (s, Val tt) /\
    trace s =
      trace s_pre ++ [EPrint (ProcessFinished (t_time tk - w_start w))] /\
    log s = log s_pre /\
    rows (trace s) =
      (rows (trace s0) +
       (if truthy (logfile cfg) then List.length pre else 0))%nat /\
    (truthy (plot cfg) = true -> holds (log s) (List.length pre)).
Proof.
  intros Hw Hpre Hr Hzd H0.
  pose proof (status_read_seen Hr) as Hs.
  assert (Hz : zombie_or_dead status = true)
    by (destruct Hzd as [-> | ->]; reflexivity).
  destruct (@sampling_after_completes w cfg pre tk later s0 Hw Hpre)
    as (s1 & tr & R1 & T & Rw & _ & _ & L1 & Run).
  specialize (Run _ _ (@iteration_finished cfg (w_start w) tk status s1 Hs Hz)).
  eexists s1, _. split; [exact R1|]. split; [exact Run|].
  cbn [trace log]. repeat split.
  - rewrite rows_app, T, rows_app, Rw. cbn. lia.
  - intros Hp. apply (L1 Hp 0%nat H0).
Qed.

(** Running at the status checks of iterations 1 to 3, a zombie at the
    fourth: exactly 3 samples and 3 rows.  Running at the first two, dead
    at the third by the attribute of an old psutil: exactly 2 samples and
    2 rows. *)
Lemma zombie_or_dead_run_keeps_earlier_samples :
  (exists s,
     sampling (Scenario.world Scenario.three_then_zombie) Scenario.both
              initial = (s, Val tt) /\
     holds (log s) 3 /\
     rows (trace s) = 3%nat /\
     last (trace s) EClose = EPrint (ProcessFinished (104 - 100))) /\
  (exists s,
     sampling (Scenario.world Scenario.two_then_dead) Scenario.both
              initial = (s, Val tt) /\
     holds (log s) 2 /\
     rows (trace s) = 2%nat /\
     last (trace s) EClose = EPrint (ProcessFinished (103 - 100))).
Proof.
  split.
  - destruct (@zombie_or_dead_ends_loop_without_sample
                (Scenario.world Scenario.three_then_zombie) Scenario.both
                (firstn 3 Scenario.three_then_zombie)
                (Scenario.tick 104 Scenario.zombie) [] STATUS_ZOMBIE initial)
      as (s_pre & s & _ & Run & T & _ & R & H).
    + reflexivity.
    + repeat constructor.
    + left. reflexivity.
    + left. reflexivity.
    + exact holds_empty.
    + exists s. split; [exact Run|]. split; [exact (H eq_refl)|].
      split; [exact R|]. rewrite T. apply last_last.
  - destruct (@zombie_or_dead_ends_loop_without_sample
                (Scenario.world Scenario.two_then_dead) Scenario.both
                (firstn 2 Scenario.two_then_dead)
                (Scenario.tick 103 Scenario.dead) [] STATUS_DEAD initial)
      as (s_pre & s & _ & Run & T & _ & R & H).
    + reflexivity.
    + repeat constructor.
    + right. split; reflexivity.
    + right. reflexivity.
    + exact holds_empty.
    + exists s. split; [exact Run|]. split; [exact (H eq_refl)|].
      split; [exact R|]. rewrite T. apply last_last.
Defined.

(** ** Maximum duration *)

Lemma within_duration cfg d t :
  duration cfg = Some d -> (within cfg t <-> t <= d).
Proof.
  intros Hd. unfold within, past_duration. rewrite Hd.
  apply compare_not_gt.
Qed.

Lemma past_duration_some cfg d t :
  duration cfg = Some d -> d < t -> past_duration (duration cfg) t = true.
Proof.
  intros Hd Hlt. unfold past_duration. rewrite Hd. now apply compare_gt.
Qed.

(** An iteration whose elapsed time is past the duration does not run to
    its end. *)
Lemma past_duration_stops cfg st tk :
  past_duration (duration cfg) (t_time tk - st) = true ->
  completes cfg st tk = false.
Proof.
  intros Hd. unfold completes.
  destruct (iteration cfg st tk initial) as [s' c] eqn:E.
  rewrite (iteration_flow _ _ _ _ E).
  destruct c as [[]| | |]; try reflexivity.
  destruct (iteration_val _ _ _ _ E)
    as (_ & _ & _ & _ & _ & _ & _ & _ & _ & _ & _ & _ & H & _).
  congruence.
Qed.

Lemma logged_times_app a b :
  logged_times (a ++ b) = logged_times a ++ logged_times b.
Proof. unfold logged_times, file_lines. now rewrite !flat_map_app. Qed.

(** The row an iteration writes carries its elapsed time, and is written
    only after the duration check has passed. *)
Lemma iteration_logged cfg st tk s s' c :
  iteration cfg st tk s = (s', c) ->
  exists tr,
    trace s' = trace s ++ tr /\
    Forall (fun t => t = t_time tk - st /\ within cfg t) (logged_times tr).
Proof.
  unfold within. open_iteration.
  all: intros H; inversion H; subst; clear H; cbn [trace log].
  all: eexists; (split; [trace_shape|]).
  all: cbn; repeat constructor; auto.
Qed.

Lemma while_true_logged cfg st ticks :
  forall s s' c,
    while_true (iteration cfg st) ticks s = (s', c) ->
    exists tr,
      trace s' = trace s ++ tr /\
      Forall (within cfg) (logged_times tr).
Proof.
  induction ticks as [|tk later IH]; intros s s' c H.
  - cbn in H. inversion H; subst. exists []. rewrite app_nil_r.
    split; [reflexivity|constructor].
  - cbn [while_true] in H.
    destruct (iteration cfg st tk s) as [s1 c1] eqn:E.
    destruct (iteration_logged _ _ _ _ E) as (tr & Ht & Hl).
    assert (Hl' : Forall (within cfg) (logged_times tr)).
    { eapply Forall_impl; [|exact Hl]. intros t Ht'. exact (proj2 Ht'). }
    destruct c1 as [[]| | |].
    + destruct (IH _ _ _ H) as (tr2 & Ht2 & Hl2).
      exists (tr ++ tr2). rewrite Ht2, Ht, app_assoc.
      split; [reflexivity|]. rewrite logged_times_app.
      apply Forall_app. now split.
    + inversion H; subst. exists tr. auto.
    + inversion H; subst. exists tr. auto.
    + inversion H; subst. exists tr. auto.
Qed.

(** C8.  With a maximum duration [d]:
    - every elapsed time the loop records is at most [d], hence at most
      [d] plus any slack: the elapsed time of every row it writes to the
      log file, and every item it appends to the times of the series;
    - the loop has ended once an iteration finds the elapsed time above
      [d];
    - when that iteration comes after iterations that ran to their end
      and its status check sees a live root, the loop ends normally there,
      printing nothing, with the rows and samples of the earlier
      iterations only. *)
Theorem duration_bounds_and_ends_loop w cfg d s0 :
  duration cfg = Some d ->
  Forall (fun t => t <= d) (times (log s0)) ->
  (forall s c slack,
     sampling w cfg s0 = (s, c) ->
     0 <= slack ->
     Forall (fun t => t <= d /\ t <= d + slack) (times (log s)) /\
     exists tr,
       trace s = trace s0 ++ tr /\
       Forall (fun t => t <= d /\ t <= d + slack) (logged_times tr)) /\
  (forall pre tk later,
     w_ticks w = pre ++ tk :: later ->
     d < t_time tk - w_start w ->
     snd (sampling w cfg s0) <> Pending) /\
  (forall pre tk later status,
     w_ticks w = pre ++ tk :: later ->
     Forall (fun t => completes cfg (w_start w) t = true) pre ->
     seen_status (t_proc tk) = Some status ->
     zombie_or_dead status = false ->
     d < t_time tk - w_start w ->
     exists s tr,
       sampling w cfg s0 = (s, Val tt) /\
       trace s = trace s0 ++ tr /\
       Forall (fun ev => is_print ev = false) tr /\
       rows tr = (if truthy (logfile cfg) then List.length pre else 0%nat) /\
       (truthy (plot cfg) = true ->
        forall n, holds (log s0) n -> holds (log s) (n + List.length pre))).
Proof.
  intros Hd H0. split; [|split].
  - intros s c slack Run Hslack.
    unfold sampling, except_KeyboardInterrupt in Run.
    destruct (while_true (iteration cfg (w_start w)) (w_ticks w) s0)
      as [s1 c1] eqn:E.
    destruct (while_true_shape _ _ _ _ E) as (tr & _ & _ & W).
    destruct (while_true_logged _ _ _ _ E) as (tr' & T' & W').
    assert (Hs : s = s1).
    { destruct c1 as [[]| |e|]; try (inversion Run; reflexivity).
      destruct (is_KeyboardInterrupt e); inversion Run; reflexivity. }
    rewrite Hs.
    assert (Hw : Forall (within cfg) (times (log s1))).
    { apply W. eapply Forall_impl; [|exact H0].
      intros t Ht. now apply (@within_duration cfg d t Hd). }
    split.
    + eapply Forall_impl; [|exact Hw].
      intros t Ht. apply (@within_duration cfg d t Hd) in Ht.
      split; [exact Ht|]. lra.
    + exists tr'. split; [exact T'|].
      eapply Forall_impl; [|exact W'].
      intros t Ht. apply (@within_duration cfg d t Hd) in Ht.
      split; [exact Ht|]. lra.
  - intros pre tk later Hw Hlt.
    unfold sampling, except_KeyboardInterrupt.
    assert (Hex : Exists (fun t => completes cfg (w_start w) t = false)
                         (w_ticks w)).
    { rewrite Hw. apply Exists_app. right. constructor.
      apply past_duration_stops.
      now apply (@past_duration_some cfg d _ Hd). }
    pose proof (@while_true_ends cfg (w_start w) _ Hex s0) as NP.
    destruct (while_true (iteration cfg (w_start w)) (w_ticks w) s0)
      as [s1 c1].
    destruct c1 as [[]| |e|]; cbn in *; try discriminate; try congruence.
    destruct (is_KeyboardInterrupt e); discriminate.
  - intros pre tk later status Hw Hpre Hs Hz Hlt.
    destruct (@sampling_after_completes w cfg pre tk later s0 Hw Hpre)
      as (s1 & tr & _ & T & Rw & Pr & _ & L1 & Run).
    specialize (Run _ _ (@iteration_duration cfg (w_start w) tk status s1
                           Hs Hz (@past_duration_some cfg d _ Hd Hlt))).
    exists s1, tr. auto.
Qed.

(** A duration of 2.5 seconds, a root that keeps running: the loop ends at
    the third iteration (elapsed time 3), silently.  With log and chart:
    two rows and two samples, all within the duration.  With the log
    alone: two rows, at the elapsed times 1 and 2. *)
Lemma duration_two_and_a_half_gives_two_samples :
  let w := Scenario.world Scenario.three_then_zombie in
  let c := Scenario.cfg (Some "log.txt"%string) (Some "plot.png"%string)
                        (Some (5 # 2)) None false false false in
  (exists s tr,
     sampling w c initial = (s, Val tt) /\
     trace s = trace initial ++ tr /\
     Forall (fun ev => is_print ev = false) tr /\
     rows tr = 2%nat /\
     holds (log s) 2 /\
     Forall (fun t => t <= 5 # 2 /\ t <= (5 # 2) + 1) (times (log s)) /\
     Forall (fun t => t <= 5 # 2 /\ t <= (5 # 2) + 1) (logged_times tr)) /\
  (let run := sampling w (Scenario.log_only (Some (5 # 2))) initial in
   exists tr,
     snd run = Val tt /\
     trace (fst run) = trace initial ++ tr /\
     rows tr = 2%nat /\
     List.length (logged_times tr) = 2%nat /\
     Forall (fun t => t <= 5 # 2 /\ t <= (5 # 2) + 1) (logged_times tr)).
Proof.
  intros w c. split.
  - destruct (@duration_bounds_and_ends_loop w c (5 # 2) initial)
      as (Bound & _ & Silent).
    + reflexivity.
    + constructor.
    + destruct (Silent (firstn 2 Scenario.three_then_zombie)
                       (Scenario.tick 103 Scenario.running)
                       [Scenario.tick 104 Scenario.zombie] STATUS_RUNNING)
        as (s & tr & Run & T & Pr & R & H).
      * reflexivity.
      * repeat constructor.
      * reflexivity.
      * reflexivity.
      * reflexivity.
      * exists s, tr. repeat (split; [assumption|]).
        split; [exact (H eq_refl 0%nat holds_empty)|].
        destruct (Bound s (Val tt) 1 Run) as (B1 & tr' & T' & B2);
          [discriminate|].
        split; [exact B1|].
        rewrite T in T'. apply app_inv_head in T'. now subst tr'.
  - destruct (@duration_bounds_and_ends_loop
                w (Scenario.log_only (Some (5 # 2))) (5 # 2) initial)
      as (Bound & _ & _).
    + reflexivity.
    + constructor.
    + intros run.
      destruct (Bound (fst run) (snd run) 1 (surjective_pairing run))
        as (_ & tr & T & B); [discriminate|].
      exists tr. split; [vm_compute; reflexivity|].
      split; [exact T|].
      cbn [trace initial app] in T. rewrite <- T in *.
      split; [vm_compute; reflexivity|].
      split; [vm_compute; reflexivity|]. exact B.
Defined.

(** ** Before and after the loop *)

Lemma setup_run w pid cfg s :
  setup w pid cfg s =
  match w_process w with
  | Exc e => (s, Thr e)
  | Ok _ =>
      if truthy (logfile cfg) then
        match w_open w with
        | Exc e => (push s [EAttach pid], Thr e)
        | Ok _ =>
            match w_header w with
            | Exc e => (push s [EAttach pid; EOpen (log_path cfg)], Thr e)
            | Ok _ =>
                ({| trace := trace s ++ [EAttach pid; EOpen (log_path cfg);
                                         EWrite Header];
                    log := empty_log |}, Val tt)
            end
        end
      else ({| trace := trace s ++ [EAttach pid]; log := empty_log |}, Val tt)
  end.
Proof.
  unfold setup, when, call, bind, throw, ret, emit, modify_log, push,
    log_path.
  destruct (w_process w); [|reflexivity].
  destruct (truthy (logfile cfg)); [|reflexivity].
  destruct (w_open w); [|reflexivity].
  destruct (w_header w); cbn; rewrite <- !app_assoc; reflexivity.
Qed.

Lemma render_run w cfg s :
  render w cfg s =
  match chart (log s) (include_io cfg) (max_cpu_scale cfg) (w_cpu_count w) with
  | Exc e => (s, Thr e)
  | Ok c =>
      match w_savefig w with
      | Exc e => (s, Thr e)
      | Ok _ => (push s [ESavefig (plot_path cfg) c], Val tt)
      end
  end.
Proof.
  unfold render, call, bind, throw, ret, emit, push, plot_path.
  destruct (chart _ _ _ _); [|reflexivity].
  destruct (w_savefig w); reflexivity.
Qed.

Lemma finish_run w cfg s :
  finish w cfg s =
  if truthy (logfile cfg) then
    match w_close w with
    | Exc e => (s, Thr e)
    | Ok _ =>
        if truthy (plot cfg) then render w cfg (push s [EClose])
        else (push s [EClose], Val tt)
    end
  else if truthy (plot cfg) then render w cfg s
  else (s, Val tt).
Proof.
  unfold finish, when, call, bind, throw, ret, emit, push.
  destruct (truthy (logfile cfg)).
  - destruct (w_close w); [|reflexivity].
    destruct (truthy (plot cfg)); [|reflexivity].
    cbn. destruct (render w cfg _) as [s1 [[]| | |]]; reflexivity.
  - cbn. destruct (truthy (plot cfg)); [|reflexivity].
    destruct (render w cfg s) as [s1 [[]| | |]]; reflexivity.
Qed.




(** [monitor], phase by phase. *)
Lemma monitor_run w pid cfg s :
  monitor w pid cfg s =
  match setup w pid cfg s with
  | (s1, Val _) =>
      match sampling w cfg s1 with
      | (s2, Val _) => finish w cfg s2
      | other => other
      end
  | (s1, Brk) => (s1, Brk)
  | (s1, Thr e) => (s1, Thr e)
  | (s1, Pending) => (s1, Pending)
  end.
Proof.
  unfold monitor, bind.
  destruct (setup w pid cfg s) as [s1 [[]| | |]]; reflexivity.
Qed.

(** ** Log rows and samples *)





(** ** Aggregation over the descendants *)

Lemma fold_add_child_exc ds e : fold_left add_child ds (Exc e) = Exc e.
Proof. induction ds as [|d ds IH]; [reflexivity|exact IH]. Qed.

(** The loop over the descendants adds to the CPU total the percentage of
    each descendant whose CPU query answers, and to the memory totals the
    memory of each descendant both of whose queries answer. *)
Lemma fold_add_child ds :
  forall c r v tot,
    fold_left add_child ds (Ok (c, r, v)) = Ok tot ->
    fst (fst tot) == c + total (flat_map cpu_share ds) /\
    snd (fst tot) == r + total (flat_map (mem_share rss) ds) /\
    snd tot == v + total (flat_map (mem_share vms) ds).
Proof.
  induction ds as [|d ds IH]; intros c r v tot H.
  - cbn in H. inversion H; subst.
    cbn [fst snd flat_map total fold_right]. repeat split; lra.
  - cbn [fold_left] in H. cbn [flat_map].
    unfold add_child in H at 2. unfold cpu_share at 1, mem_share at 1 3.
    destruct (get_percent d) as [x|e].
    + destruct (get_memory d) as [m|e].
      * destruct (IH _ _ _ _ H) as (H1 & H2 & H3).
        rewrite H1, H2, H3. unfold total.
        cbn [app fold_right]. repeat split; lra.
      * destruct (is_Exception e);
          [|rewrite fold_add_child_exc in H; discriminate].
        destruct (IH _ _ _ _ H) as (H1 & H2 & H3).
        rewrite H1, H2, H3. unfold total.
        cbn [app fold_right]. repeat split; lra.
    + destruct (is_Exception e);
        [|rewrite fold_add_child_exc in H; discriminate].
      destruct (IH _ _ _ _ H) as (H1 & H2 & H3).
      rewrite H1, H2, H3. unfold total.
      cbn [app fold_right]. repeat split; lra.
Qed.

(** C5.  What the loop over the children does with a child that exits
    between its CPU query and its memory query: with a root at 10% and one
    such child at 15%, the iteration runs to its end and records 25%, the
    child's percentage included, together with the memory of the root
    alone (2 MiB resident, 4 MiB virtual). *)
Theorem vanishing_child_keeps_its_cpu :
  let c := Scenario.cfg None (Some "plot.png"%string) None None
                        true false false in
  let run := iteration c 100 (Scenario.tick 101 Scenario.bereaved) initial in
  snd run = Val tt /\
  get_percent (Scenario.vanishing 15) = Ok 15 /\
  get_memory (Scenario.vanishing 15) = Exc NoSuchProcess /\
  (exists cp, cpu (log (fst run)) = [cp] /\ cp == 25 /\ ~ cp == 10) /\
  (exists re, mem_real (log (fst run)) = [re] /\ re == 2) /\
  (exists vi, mem_virtual (log (fst run)) = [vi] /\ vi == 4).
Proof.
  cbv zeta. split; [reflexivity|]. split; [reflexivity|].
  split; [reflexivity|]. split; [|split].
  - eexists. split; [reflexivity|]. split; [reflexivity|]. discriminate.
  - eexists. split; reflexivity.
  - eexists. split; reflexivity.
Qed.

(** ** Failures of the root's queries *)

(** C3.  A root whose I/O counters cannot be read at the second
    iteration: [AccessDenied] leaves [monitor]; the log file is not
    closed and no chart is drawn, although one sample has been collected.
    A root whose memory cannot be read at the second iteration: [monitor]
    returns, the log file is closed and the chart is drawn. *)
Theorem io_failure_escapes_monitor :
  let io_run :=
    monitor (Scenario.world [Scenario.tick 101 Scenario.running;
                             Scenario.tick 102 Scenario.io_denied])
            4242 Scenario.both initial in
  let mem_run :=
    monitor (Scenario.world [Scenario.tick 101 Scenario.running;
                             Scenario.tick 102 Scenario.mem_denied])
            4242 Scenario.both initial in
  snd io_run = Thr AccessDenied /\
  holds (log (fst io_run)) 1 /\
  existsb is_close (trace (fst io_run)) = false /\
  existsb is_chart (trace (fst io_run)) = false /\
  snd mem_run = Val tt /\
  holds (log (fst mem_run)) 1 /\
  existsb is_close (trace (fst mem_run)) = true /\
  existsb is_chart (trace (fst mem_run)) = true.
Proof.
  cbv zeta. repeat split; try reflexivity.
  all: repeat constructor.
Qed.

(** ** The chart *)

Lemma holds_lengths lg n :
  holds lg n ->
  List.length (times lg) = n /\ List.length (cpu lg) = n /\
  List.length (mem_real lg) = n /\ List.length (mem_virtual lg) = n /\
  List.length (io_read lg) = n /\ List.length (io_write lg) = n.
Proof. intros H. open_grown. repeat split; lia. Qed.

Lemma plot_curve_same x y col :
  List.length x = List.length y ->
  plot_curve x y col = Ok {| xs := x; ys := y; color := col |}.
Proof. intros H. unfold plot_curve. now rewrite H, Nat.eqb_refl. Qed.

(** The chart is drawn as soon as the series is whole, has a sample, and
    the number of cores is known. *)
Lemma chart_drawn lg n with_io max_scale count :
  holds lg n ->
  n <> 0%nat ->
  (max_scale = true -> count <> None) ->
  exists c, chart lg with_io max_scale count = Ok c.
Proof.
  intros H Hn Hc.
  destruct (holds_lengths H) as (H0 & H1 & H2 & _ & H3 & H4).
  unfold chart.
  rewrite !plot_curve_same by congruence.
  destruct (cpu lg); [cbn in H1; congruence|].
  destruct (mem_real lg); [cbn in H2; congruence|].
  destruct (io_read lg); [cbn in H3; congruence|].
  destruct (io_write lg); [cbn in H4; congruence|].
  destruct max_scale.
  - destruct count; [|now destruct Hc].
    destruct with_io; cbn; eexists; reflexivity.
  - destruct with_io; cbn; eexists; reflexivity.
Qed.

(** The chart of an empty series: the maximum of an empty list. *)
Lemma empty_series_chart_faults :
  let w := Scenario.world [Scenario.tick 101 Scenario.zombie] in
  let c := Scenario.cfg None (Some "plot.png"%string) None None false in
  let run io scale := monitor w 4242 (c io scale) initial in
  holds (log (fst (run false false))) 0 /\
  snd (run false false) = Thr ValueError /\
  snd (run false true) = Thr ValueError /\
  snd (run true false) = Thr ValueError /\
  snd (run true true) = Thr ValueError.
Proof.
  cbv zeta. split; [repeat constructor|]. repeat split.
Qed.

(** C2, amended.  For a series of [n] samples and a known number of
    cores, under every combination of the two flags: with no sample the
    chart raises [ValueError], the maximum of an empty list; with at least
    one sample it is drawn. *)
Theorem chart_needs_a_sample lg n with_io max_scale cores :
  holds lg n ->
  (n = 0%nat -> chart lg with_io max_scale (Some cores) = Exc ValueError) /\
  (n <> 0%nat -> exists c, chart lg with_io max_scale (Some cores) = Ok c).
Proof.
  intros H. split.
  - intros ->.
    destruct (holds_lengths H) as (H0 & H1 & H2 & _ & H3 & H4).
    apply length_zero_iff_nil in H0, H1, H2, H3, H4.
    unfold chart. rewrite H0, H1, H2, H3, H4.
    destruct max_scale, with_io; reflexivity.
  - intros Hn. apply (@chart_drawn lg n); [exact H|exact Hn|discriminate].
Qed.

(** No sample: [ValueError]; the sample of one iteration: a chart. *)
Lemma chart_of_nothing_and_of_one_sample :
  let one :=
    log (fst (iteration Scenario.both 100
                        (Scenario.tick 101 Scenario.running) initial)) in
  chart empty_log true false (Some 4%Z) = Exc ValueError /\
  exists c, chart one true false (Some 4%Z) = Ok c.
Proof.
  intros one. split.
  - apply (@chart_needs_a_sample empty_log 0 true false 4%Z holds_empty).
    reflexivity.
  - apply (@chart_needs_a_sample one 1 true false 4%Z).
    + repeat constructor.
    + discriminate.
Defined.

(** ** Failing before the loop *)

Lemma parse_args_positional positional opts :
  process_id_or_command (parse_args positional opts) = positional.
Proof.
  unfold parse_args.
  assert (H : forall a,
             process_id_or_command (fold_left set_option opts a)
             = process_id_or_command a).
  { induction opts as [|o opts IH]; intros a; [reflexivity|].
    cbn [fold_left]. rewrite IH. now destruct o. }
  now rewrite H.
Qed.

(** [main], phase by phase. *)
Lemma main_run w positional opts s :
  let cfg := config_of (parse_args positional opts) in
  main w positional opts s =
  match Py.int positional with
  | Some pid =>
      match monitor w pid cfg (push s [EPrint (Attaching pid)]) with
      | (s1, Val _) => (s1, Val tt)
      | other => other
      end
  | None =>
      match w_popen w with
      | Exc e => (push s [EPrint (StartingUp positional)], Thr e)
      | Ok pid =>
          match monitor w pid cfg
                        (push s [EPrint (StartingUp positional);
                                 ESpawn positional pid]) with
          | (s1, Val _) => (push s1 [EKill pid], Val tt)
          | other => other
          end
      end
  end.
Proof.
  cbv zeta. unfold main, attach_or_spawn, bind.
  rewrite parse_args_positional.
  destruct (Py.int positional) as [pid|].
  - cbn. fold (push s [EPrint (Attaching pid)]).
    destruct (monitor w pid _ _) as [s1 [[]| | |]]; reflexivity.
  - cbn. destruct (w_popen w) as [pid|e]; [|reflexivity].
    cbn. rewrite <- app_assoc. cbn [app].
    fold (push s [EPrint (StartingUp positional); ESpawn positional pid]).
    destruct (monitor w pid _ _) as [s1 [[]| | |]]; reflexivity.
Qed.

(** The log file cannot be opened, the command has been started all the
    same, and is left running. *)
Lemma unwritable_log_found_after_spawn :
  let run :=
    main (Scenario.world_unwritable [Scenario.tick 101 Scenario.running])
         "sleep 10" [OptLog "/nonexistent/log.txt"] initial in
  snd run = Thr OSError /\
  trace (fst run) =
    [EPrint (StartingUp "sleep 10"); ESpawn "sleep 10" 4242; EAttach 4242].
Proof. cbv zeta. split; reflexivity. Qed.

(** C4, amended.  A log file that cannot be opened makes [main] fail with
    the error of [open], before the loop: no tick of the script is used
    and nothing but the events below has happened.  By then the process
    has been attached to, and, when the argument is a command, spawned;
    the spawned process is not killed. *)
Theorem unwritable_log_fails_after_spawn_and_attach w positional opts e :
  let cfg := config_of (parse_args positional opts) in
  truthy (logfile cfg) = true ->
  w_process w = Ok tt ->
  w_open w = Exc e ->
  (forall pid,
     Py.int positional = Some pid ->
     main w positional opts initial =
       ({| trace := [EPrint (Attaching pid); EAttach pid];
           log := empty_log |}, Thr e)) /\
  (forall pid,
     Py.int positional = None ->
     w_popen w = Ok pid ->
     main w positional opts initial =
       ({| trace := [EPrint (StartingUp positional); ESpawn positional pid;
                     EAttach pid];
           log := empty_log |}, Thr e)).
Proof.
  intros cfg Hl Hp Ho. split; intros pid Hi.
  - rewrite main_run, Hi, monitor_run, setup_run. fold cfg.
    rewrite Hp, Hl, Ho. reflexivity.
  - intros Hs. rewrite main_run, Hi, Hs, monitor_run, setup_run. fold cfg.
    rewrite Hp, Hl, Ho. reflexivity.
Qed.

(** Attached by pid, started as a command: the same failure. *)
Lemma unwritable_log_in_both_modes :
  let w := Scenario.world_unwritable [Scenario.tick 101 Scenario.running] in
  let opts := [OptLog "/nonexistent/log.txt"] in
  main w "1234" opts initial =
    ({| trace := [EPrint (Attaching 1234); EAttach 1234];
        log := empty_log |}, Thr OSError) /\
  main w "sleep 10" opts initial =
    ({| trace := [EPrint (StartingUp "sleep 10"); ESpawn "sleep 10" 4242;
                  EAttach 4242];
        log := empty_log |}, Thr OSError).
Proof.
  intros w opts. split.
  - apply (@unwritable_log_fails_after_spawn_and_attach w "1234" opts OSError
             eq_refl eq_refl eq_refl).
    reflexivity.
  - apply (@unwritable_log_fails_after_spawn_and_attach w "sleep 10" opts
             OSError eq_refl eq_refl eq_refl); reflexivity.
Defined.

(** ** The include-I/O flag *)





(** ** The walk over the descendants *)

Lemma all_children_eq pr :
  all_children pr =
  match escapes pr with
  | Some e => Exc e
  | None => walk (kids pr)
  end.
Proof.
  destruct pr as [cp gcp mi gmi io sc sa ch gch].
  unfold escapes, kids. cbn [children get_children].
  destruct ch as [cs|e].
  - reflexivity.
  - cbn. destruct (is_AttributeError e).
    + destruct gch; reflexivity.
    + destruct (is_Exception e); reflexivity.
Qed.

Lemma kids_ind (P : Proc -> Prop) :
  (forall pr, Forall P (kids pr) -> P pr) -> forall pr, P pr.
Proof.
  intros H. apply Proc_nested_ind. intros pr H1 H2. apply H.
  unfold kids. destruct (children pr) as [cs|e]; [exact H1|].
  destruct (is_AttributeError e); [exact H2|constructor].
Qed.

Lemma walk_preorder cs ds :
  walk cs = Ok ds ->
  ds = flat_map (fun c => c :: offspring (all_children c)) cs.
Proof.
  revert ds. induction cs as [|c cs IH]; intros ds H; cbn [walk] in H.
  - now inversion H.
  - destruct (all_children c) as [below|e] eqn:E; [|discriminate].
    destruct (walk cs) as [after|e]; [|discriminate].
    inversion H; subst. cbn [flat_map]. rewrite E. cbn [offspring app].
    f_equal. f_equal. now apply IH.
Qed.

Lemma walk_ok cs :
  (exists ds, walk cs = Ok ds) <->
  Forall (fun c => exists l, all_children c = Ok l) cs.
Proof.
  induction cs as [|c cs IH]; cbn [walk].
  - split; [constructor|eauto].
  - split.
    + intros (ds & H).
      destruct (all_children c) as [below|e] eqn:E; [|discriminate].
      destruct (walk cs) as [after|e]; [|discriminate].
      constructor; [exists below; exact E|]. apply IH. eexists; reflexivity.
    + intros H. inversion H as [|? ? (l & Hl) Hcs]; subst.
      apply IH in Hcs. destruct Hcs as (ds & Hds).
      rewrite Hl, Hds. eauto.
Qed.

Lemma walk_exc cs e :
  walk cs = Exc e -> exists c, In c cs /\ all_children c = Exc e.
Proof.
  induction cs as [|c cs IH]; cbn [walk In]; [discriminate|].
  destruct (all_children c) as [below|e'] eqn:E.
  - destruct (walk cs) as [after|e'']; [discriminate|].
    intros H; inversion H; subst. destruct (IH eq_refl) as (c' & Hin & Hc').
    eauto.
  - intros H; inversion H; subst. eauto.
Qed.

Lemma reach_inv p d :
  Reach p d <-> exists c, In c (kids p) /\ (d = c \/ Reach c d).
Proof.
  split.
  - intros [c Hc|c d' Hc Hr]; eauto.
  - intros (c & Hc & [->|Hr]); [now apply reach_child|].
    eapply reach_below; eauto.
Qed.

Lemma walk_ok_child cs ds c :
  walk cs = Ok ds -> In c cs -> exists l, all_children c = Ok l.
Proof.
  intros H Hc.
  assert (Hx : exists ds, walk cs = Ok ds) by eauto.
  apply walk_ok in Hx. rewrite Forall_forall in Hx. now apply Hx.
Qed.

(** What the walk lists is what is below the root. *)
Lemma all_children_reach pr ds :
  all_children pr = Ok ds ->
  forall d, In d ds <-> Reach pr d.
Proof.
  revert ds. induction pr as [pr IH] using kids_ind. intros ds H d.
  rewrite Forall_forall in IH.
  rewrite all_children_eq in H.
  destruct (escapes pr); [discriminate|].
  rewrite reach_inv. rewrite (@walk_preorder (kids pr) ds H), in_flat_map.
  split; intros (c & Hc & Hd); exists c; (split; [exact Hc|]).
  - destruct Hd as [->|Hd]; [now left|]. right.
    destruct (all_children c) as [l|e] eqn:E; [|destruct Hd].
    now apply (IH c Hc l E).
  - destruct Hd as [->|Hd]; [now left|]. right.
    destruct (@walk_ok_child (kids pr) ds c H Hc) as (l & Hl).
    rewrite Hl. cbn [offspring]. now apply (IH c Hc l Hl).
Qed.

(** X1.  When [all_children] returns, the processes it lists are exactly
    those below the root in the tree that the walk sees: the children
    that [children()] answers (or [get_children()] after an
    [AttributeError]) and, transitively, theirs. *)
Theorem all_children_lists_descendants pr ds :
  all_children pr = Ok ds ->
  forall d, In d ds <-> Reach pr d.
Proof. exact (@all_children_reach pr ds). Qed.

(** X2.  The descendants come in depth-first pre-order: each child of the
    root, followed at once by what the walk of that child lists, before
    the next child. *)
Theorem all_children_is_preorder pr ds :
  all_children pr = Ok ds ->
  ds = flat_map (fun c => c :: offspring (all_children c)) (kids pr) /\
  Forall (fun c => exists l, all_children c = Ok l) (kids pr).
Proof.
  intros H. rewrite all_children_eq in H.
  destruct (escapes pr); [discriminate|].
  split; [now apply walk_preorder|].
  apply walk_ok. eauto.
Qed.

(** X3.  [all_children] returns exactly when no [try] statement lets an
    exception out at the root or at a process below it; and when it
    raises, the exception is one that got out at such a process: a
    [KeyboardInterrupt] of [children()], or a failure of the fallback
    [get_children()].  Any other failure of [children()] is swallowed. *)
Theorem all_children_returns_iff_nothing_escapes pr :
  ((exists ds, all_children pr = Ok ds) <->
   (forall n, n = pr \/ Reach pr n -> escapes n = None)) /\
  (forall e, all_children pr = Exc e ->
             exists n, (n = pr \/ Reach pr n) /\ escapes n = Some e).
Proof.
  induction pr as [pr IH] using kids_ind.
  rewrite Forall_forall in IH.
  rewrite all_children_eq. split; [split|].
  - intros (ds & H) n Hn.
    destruct (escapes pr) eqn:E; [discriminate|].
    destruct Hn as [->|Hn]; [exact E|].
    apply reach_inv in Hn. destruct Hn as (c & Hc & Hn).
    destruct (@walk_ok_child (kids pr) ds c H Hc) as (l & Hl).
    destruct (IH c Hc) as (Hiff & _).
    apply (proj1 Hiff (ex_intro _ l Hl)).
    destruct Hn as [->|Hn]; auto.
  - intros H. rewrite (H pr (or_introl eq_refl)).
    apply walk_ok. apply Forall_forall. intros c Hc.
    destruct (IH c Hc) as (Hiff & _). apply Hiff.
    intros n Hn. apply H. right.
    apply reach_inv. exists c. split; [exact Hc|].
    destruct Hn as [->|Hn]; auto.
  - intros e. destruct (escapes pr) as [e'|] eqn:E.
    + intros H. inversion H; subst. exists pr. auto.
    + intros H. apply walk_exc in H. destruct H as (c & Hc & H).
      destruct (IH c Hc) as (_ & Hexc).
      destruct (Hexc e H) as (n & Hn & He). exists n. split; [|exact He].
      right. apply reach_inv. exists c. split; [exact Hc|].
      destruct Hn as [->|Hn]; auto.
Qed.

(** ** The sample of an iteration *)

(** The descendants whose CPU query answers are those both of whose
    queries answer and those whose memory query then fails. *)
Lemma cpu_share_split ds :
  total (flat_map cpu_share ds) ==
  total (flat_map whole_cpu ds) + total (flat_map stray_cpu ds).
Proof.
  unfold total. induction ds as [|d ds IH]; cbn [flat_map fold_right].
  - lra.
  - unfold cpu_share at 1, whole_cpu at 1, stray_cpu at 1.
    destruct (get_percent d) as [c|e]; [destruct (get_memory d) as [m|e]|];
      cbn [app fold_right]; lra.
Qed.

(** C6.  With include-children enabled, an iteration that runs to its end
    takes one sample over the root and the processes [all_children]
    lists, which are those below the root in the tree, in depth-first
    pre-order.  Its CPU value is the root's percentage, plus the
    percentages of the descendants both of whose queries answered, plus
    the percentages of the descendants whose CPU query answered and whose
    memory query then failed.  Its memory values are the root's plus
    those of the descendants both of whose queries answered.  The I/O
    values are the root's own counters.  When logging, the row written
    carries the elapsed time and the CPU and memory values; when
    charting, the six values are appended to the series; otherwise the
    log file and the series are left as they are. *)
Theorem sample_sums_root_and_descendants cfg st tk s s' :
  include_children cfg = true ->
  iteration cfg st tk s = (s', Val tt) ->
  exists c0 m counters r2 r3 ds cp re vi,
    get_percent (t_proc tk) = Ok c0 /\
    get_memory (t_proc tk) = Ok m /\
    io_counters (t_proc tk) = Ok counters /\
    nth_error counters 2 = Some r2 /\
    nth_error counters 3 = Some r3 /\
    all_children (t_proc tk) = Ok ds /\
    (forall d, In d ds <-> Reach (t_proc tk) d) /\
    ds = flat_map (fun c => c :: offspring (all_children c))
                  (kids (t_proc tk)) /\
    cp == c0 + total (flat_map whole_cpu ds)
             + total (flat_map stray_cpu ds) /\
    re == mb (rss m) + total (flat_map (mem_share rss) ds) /\
    vi == mb (vms m) + total (flat_map (mem_share vms) ds) /\
    trace s' =
      trace s ++
      (if truthy (logfile cfg)
       then [EWrite (Row (t_time tk - st) cp re vi); EFlush]
       else []) /\
    (truthy (plot cfg) = true ->
     times (log s') = times (log s) ++ [t_time tk - st] /\
     cpu (log s') = cpu (log s) ++ [cp] /\
     mem_real (log s') = mem_real (log s) ++ [re] /\
     mem_virtual (log s') = mem_virtual (log s) ++ [vi] /\
     io_read (log s') = io_read (log s) ++ [mb r2] /\
     io_write (log s') = io_write (log s) ++ [mb r3]) /\
    (truthy (plot cfg) = false -> log s' = log s).
Proof.
  intros Hk E.
  destruct (iteration_val _ _ _ _ E)
    as (c0 & m & cs & r2 & r3 & tot & Hc & Hm & Hio & H2 & H3 & Hw & _
        & Ht & Hl).
  rewrite Hk in Hw. unfold with_children in Hw.
  destruct (all_children (t_proc tk)) as [ds|e] eqn:Hds; [|discriminate].
  destruct (fold_add_child _ _ _ _ Hw) as (S1 & S2 & S3).
  rewrite cpu_share_split, Qplus_assoc in S1.
  unfold Py.index in H2, H3.
  destruct (nth_error cs 2) as [x2|] eqn:N2; [|discriminate].
  destruct (nth_error cs 3) as [x3|] eqn:N3; [|discriminate].
  inversion H2; inversion H3; subst x2 x3.
  pose proof (@all_children_reach (t_proc tk) ds Hds) as Hreach.
  assert (Hpre : ds = flat_map (fun c => c :: offspring (all_children c))
                               (kids (t_proc tk))).
  { rewrite all_children_eq in Hds.
    destruct (escapes (t_proc tk)); [discriminate|].
    now apply walk_preorder. }
  exists c0, m, cs, r2, r3, ds, (fst (fst tot)), (snd (fst tot)), (snd tot).
  repeat (split; [first [assumption | reflexivity]|]).
  split.
  - intros Hp. rewrite Hp in Hl. rewrite Hl.
    cbn [run_appends appends fold_left times cpu mem_real mem_virtual
           io_read io_write].
    repeat split.
  - intros Hp. rewrite Hp in Hl. exact Hl.
Qed.

(** A root at 10% and two children at 15% each, charting: 40%.  The clan,
    two levels deep, logging only: the row carries 10 + 2 + 1 + 3 + 4 =
    20%, the grandchild included.  A root at 10% and one child at 15%
    that exits between its two queries: 25%, of which 15% are the
    child's. *)
Lemma root_ten_two_children_fifteen_gives_forty :
  let charting := Scenario.cfg None (Some "plot.png"%string) None None
                               true false false in
  let logging := Scenario.cfg (Some "log.txt"%string) None None None
                              true false false in
  (exists s',
     iteration charting 100 (Scenario.tick 101 Scenario.family) initial
       = (s', Val tt) /\
     exists cp, cpu (log s') = [cp] /\ cp == 40) /\
  (exists s',
     iteration logging 100 (Scenario.tick 101 Clan.root) initial
       = (s', Val tt) /\
     log s' = empty_log /\
     exists cp re vi,
       trace s' = [EWrite (Row (101 - 100) cp re vi); EFlush] /\
       cp == 20 /\ re == 5) /\
  (exists s',
     iteration charting 100 (Scenario.tick 101 Scenario.bereaved) initial
       = (s', Val tt) /\
     exists cp, cpu (log s') = [cp] /\ cp == 25 /\
     total (flat_map stray_cpu [Scenario.vanishing 15]) == 15).
Proof.
  intros charting logging. split; [|split].
  - destruct (iteration charting 100 (Scenario.tick 101 Scenario.family)
                        initial) as [s' fl] eqn:E.
    assert (F : fl = Val tt).
    { apply (f_equal snd) in E. cbn in E. symmetry. exact E. }
    subst fl.
    destruct (@sample_sums_root_and_descendants charting 100
                (Scenario.tick 101 Scenario.family) initial s' eq_refl E)
      as (c0 & m & cs & r2 & r3 & ds & cp & re & vi & Hc & _ & _ & _ & _
          & Hd & _ & _ & Hcp & _ & _ & _ & Hl & _).
    exists s'. split; [reflexivity|]. exists cp.
    split; [exact (proj1 (proj2 (Hl eq_refl)))|].
    rewrite Hcp. inversion Hc; subst c0. inversion Hd; subst ds.
    reflexivity.
  - destruct (iteration logging 100 (Scenario.tick 101 Clan.root) initial)
      as [s' fl] eqn:E.
    assert (F : fl = Val tt).
    { apply (f_equal snd) in E. cbn in E. symmetry. exact E. }
    subst fl.
    destruct (@sample_sums_root_and_descendants logging 100
                (Scenario.tick 101 Clan.root) initial s' eq_refl E)
      as (c0 & m & cs & r2 & r3 & ds & cp & re & vi & Hc & Hm & _ & _ & _
          & Hd & _ & _ & Hcp & Hre & _ & Ht & _ & Hl).
    exists s'. split; [reflexivity|]. split; [exact (Hl eq_refl)|].
    exists cp, re, vi. split; [exact Ht|].
    rewrite Hcp, Hre. inversion Hc; subst c0. inversion Hm; subst m.
    inversion Hd; subst ds. split; reflexivity.
  - destruct (iteration charting 100 (Scenario.tick 101 Scenario.bereaved)
                        initial) as [s' fl] eqn:E.
    assert (F : fl = Val tt).
    { apply (f_equal snd) in E. cbn in E. symmetry. exact E. }
    subst fl.
    destruct (@sample_sums_root_and_descendants charting 100
                (Scenario.tick 101 Scenario.bereaved) initial s' eq_refl E)
      as (c0 & m & cs & r2 & r3 & ds & cp & re & vi & Hc & _ & _ & _ & _
          & Hd & _ & _ & Hcp & _ & _ & _ & Hl & _).
    exists s'. split; [reflexivity|]. exists cp.
    split; [exact (proj1 (proj2 (Hl eq_refl)))|].
    rewrite Hcp. inversion Hc; subst c0. inversion Hd; subst ds.
    split; reflexivity.
Defined.

(** ** The events of a run *)

(** The events of one iteration; a [break] leaves the series and the log
    file as they are. *)
Lemma iteration_events cfg st tk s s' c :
  iteration cfg st tk s = (s', c) ->
  exists tr,
    trace s' = trace s ++ tr /\
    Forall (fun ev => loop_event cfg ev = true) tr /\
    (c = Brk -> log s' = log s /\ file_lines tr = []).
Proof.
  open_iteration.
  all: intros H; inversion H; subst; clear H; cbn [trace log].
  all: eexists; split; [trace_shape|].
  all: split; [repeat constructor; cbn; auto|].
  all: try discriminate.
  all: try (destruct (t_append_intr tk); discriminate).
  all: intros _; split; reflexivity.
Qed.

Lemma while_true_events cfg st ticks :
  forall s s' c,
    while_true (iteration cfg st) ticks s = (s', c) ->
    exists tr,
      trace s' = trace s ++ tr /\
      Forall (fun ev => loop_event cfg ev = true) tr.
Proof.
  induction ticks as [|tk later IH]; intros s s' c H.
  - cbn in H. inversion H; subst. exists []. now rewrite app_nil_r.
  - cbn [while_true] in H.
    destruct (iteration cfg st tk s) as [s1 c1] eqn:E.
    destruct (iteration_events _ _ _ _ E) as (tr & T & F & _).
    destruct c1 as [[]| | |].
    + destruct (IH _ _ _ H) as (tr2 & T2 & F2).
      exists (tr ++ tr2). rewrite T2, T, app_assoc.
      split; [reflexivity|]. apply Forall_app. auto.
    + inversion H; subst. eauto.
    + inversion H; subst. eauto.
    + inversion H; subst. eauto.
Qed.

Lemma sampling_events w cfg s s' c :
  sampling w cfg s = (s', c) ->
  exists tr,
    trace s' = trace s ++ tr /\
    Forall (fun ev => loop_event cfg ev = true) tr.
Proof.
  unfold sampling, except_KeyboardInterrupt.
  destruct (while_true _ _ s) as [s1 c1] eqn:E.
  destruct (while_true_events _ _ _ _ E) as (tr & T & F).
  intros H. exists tr.
  assert (s' = s1).
  { destruct c1 as [[]| |e|]; try (inversion H; reflexivity).
    destruct (is_KeyboardInterrupt e); inversion H; reflexivity. }
  subst. auto.
Qed.

Lemma loop_event_monitor_event pid cfg ev :
  loop_event cfg ev = true -> monitor_event pid cfg ev = true.
Proof. destruct ev as [[]| | | |[]| | | |]; cbn; auto; discriminate. Qed.

Lemma setup_events w pid cfg s s' c :
  setup w pid cfg s = (s', c) ->
  exists tr,
    trace s' = trace s ++ tr /\
    Forall (fun ev => monitor_event pid cfg ev = true) tr /\
    (log s' = log s \/ log s' = empty_log) /\
    file_lines tr =
      (match c with
       | Val _ => if truthy (logfile cfg) then [Header] else []
       | _ => []
       end).
Proof.
  rewrite setup_run. unfold push.
  destruct (w_process w).
  - destruct (truthy (logfile cfg)) eqn:L.
    + destruct (w_open w).
      * destruct (w_header w); intros H; inversion H; subst; cbn [trace log];
          eexists; (split; [reflexivity|]); (split; [|split; auto]);
          repeat constructor; cbn; rewrite ?L, ?Z.eqb_refl; reflexivity.
      * intros H; inversion H; subst; cbn [trace log].
        eexists; (split; [reflexivity|]); (split; [|split; auto]).
        repeat constructor; cbn; rewrite ?Z.eqb_refl; reflexivity.
    + intros H; inversion H; subst; cbn [trace log].
      eexists; (split; [reflexivity|]); (split; [|split; auto]).
      repeat constructor; cbn; rewrite ?Z.eqb_refl; reflexivity.
  - intros H; inversion H; subst. exists []. rewrite app_nil_r.
    split; [reflexivity|]. split; [constructor|auto].
Qed.

Lemma finish_events w pid cfg s s' c :
  finish w cfg s = (s', c) ->
  exists tr,
    trace s' = trace s ++ tr /\
    Forall (fun ev => monitor_event pid cfg ev = true) tr /\
    log s' = log s /\
    file_lines tr = [].
Proof.
  rewrite finish_run.
  assert (R : forall x y d,
             truthy (plot cfg) = true ->
             render w cfg x = (y, d) ->
             exists tr,
               trace y = trace x ++ tr /\
               Forall (fun ev => monitor_event pid cfg ev = true) tr /\
               log y = log x /\ file_lines tr = []).
  { intros x y d P. rewrite render_run. unfold push.
    destruct (chart _ _ _ _).
    - destruct (w_savefig w); intros H; inversion H; subst; cbn [trace log].
      + eexists. split; [reflexivity|].
        split; [repeat constructor; cbn; exact P|]. split; reflexivity.
      + exists []. rewrite app_nil_r. repeat split. constructor.
    - intros H; inversion H; subst. exists []. rewrite app_nil_r.
      repeat split. constructor. }
  destruct (truthy (logfile cfg)) eqn:L.
  - destruct (w_close w).
    + destruct (truthy (plot cfg)) eqn:P.
      * intros H. destruct (R _ _ _ eq_refl H) as (tr & T & F & Lg & Fl).
        exists (EClose :: tr). cbn [push trace log] in T, Lg.
        rewrite T, <- app_assoc. split; [reflexivity|].
        split; [constructor; [cbn; exact L|exact F]|].
        split; [exact Lg|]. cbn. exact Fl.
      * intros H; inversion H; subst. cbn [push trace log].
        eexists. split; [reflexivity|].
        split; [repeat constructor; cbn; exact L|]. split; reflexivity.
    + intros H; inversion H; subst. exists []. rewrite app_nil_r.
      repeat split. constructor.
  - destruct (truthy (plot cfg)) eqn:P.
    + intros H. exact (R _ _ _ eq_refl H).
    + intros H; inversion H; subst. exists []. rewrite app_nil_r.
      repeat split. constructor.
Qed.

(** Every event of [monitor] is one of its own. *)
Lemma monitor_events w pid cfg s s' c :
  monitor w pid cfg s = (s', c) ->
  exists tr,
    trace s' = trace s ++ tr /\
    Forall (fun ev => monitor_event pid cfg ev = true) tr.
Proof.
  rewrite monitor_run.
  destruct (setup w pid cfg s) as [s1 c1] eqn:E1.
  destruct (setup_events _ _ _ _ E1) as (t1 & T1 & F1 & _ & _).
  destruct c1 as [[]| | |];
    try solve [intros H; inversion H; subst; exists t1; auto].
  destruct (sampling w cfg s1) as [s2 c2] eqn:E2.
  destruct (sampling_events _ _ _ E2) as (t2 & T2 & F2).
  assert (F2' : Forall (fun ev => monitor_event pid cfg ev = true) t2).
  { eapply Forall_impl; [|exact F2].
    intros ev. apply loop_event_monitor_event. }
  assert (F12 : Forall (fun ev => monitor_event pid cfg ev = true) (t1 ++ t2)).
  { apply Forall_app. auto. }
  destruct c2 as [[]| | |];
    try solve [intros H; inversion H; subst; exists (t1 ++ t2);
               rewrite T2, T1, app_assoc; auto].
  intros H. destruct (@finish_events w pid cfg s2 s' c H)
    as (t3 & T3 & F3 & _).
  exists ((t1 ++ t2) ++ t3). rewrite T3, T2, T1, !app_assoc.
  split; [reflexivity|]. apply Forall_app. auto.
Qed.

(** ** What [monitor] never does *)

Lemma file_lines_app a b :
  file_lines (a ++ b) = file_lines a ++ file_lines b.
Proof. unfold file_lines. apply flat_map_app. Qed.

Lemma loop_file_lines cfg tr :
  Forall (fun ev => loop_event cfg ev = true) tr ->
  forallb is_data (file_lines tr) = true.
Proof.
  induction 1 as [|ev tr Hev _ IH]; [reflexivity|].
  change (ev :: tr) with ([ev] ++ tr).
  rewrite file_lines_app, forallb_app, IH, andb_true_r.
  destruct ev as [[]| | | |[]| | | |]; cbn in *; try discriminate; reflexivity.
Qed.

(** The loop without charting leaves the series alone. *)
Lemma while_true_without_plot cfg st ticks :
  truthy (plot cfg) = false ->
  forall s s' c,
    while_true (iteration cfg st) ticks s = (s', c) -> log s' = log s.
Proof.
  intros P. induction ticks as [|tk later IH]; intros s s' c H.
  - cbn in H. now inversion H.
  - cbn [while_true] in H.
    destruct (iteration cfg st tk s) as [s1 c1] eqn:E.
    destruct (iteration_shape _ _ _ _ E)
      as (tr & j & cp & r & v & ior & iow & _ & Hl & _ & _ & _ & Hj).
    assert (L : log s1 = log s).
    { destruct Hj as [->|(_ & P' & _)]; [exact Hl|congruence]. }
    destruct c1 as [[]| | |].
    + rewrite (IH _ _ _ H). exact L.
    + inversion H; subst. exact L.
    + inversion H; subst. exact L.
    + inversion H; subst. exact L.
Qed.

Lemma sampling_log w cfg s s' c :
  sampling w cfg s = (s', c) ->
  exists c', while_true (iteration cfg (w_start w)) (w_ticks w) s = (s', c').
Proof.
  unfold sampling, except_KeyboardInterrupt.
  destruct (while_true _ _ s) as [s1 c1].
  destruct c1 as [[]| |e|]; intros H; try (inversion H; subst; eauto).
  destruct (is_KeyboardInterrupt e); inversion H; subst; eauto.
Qed.

(** X4.  Without a log file, [monitor] never opens, writes, flushes or
    closes a file, however it ends. *)
Theorem no_log_file_no_file_event w pid cfg s s' c :
  truthy (logfile cfg) = false ->
  monitor w pid cfg s = (s', c) ->
  exists tr,
    trace s' = trace s ++ tr /\
    existsb is_file_event tr = false.
Proof.
  intros L H. destruct (monitor_events _ _ _ _ H) as (tr & T & F).
  exists tr. split; [exact T|].
  clear T H. induction F as [|ev tr Hev _ IH]; [reflexivity|].
  cbn [existsb]. rewrite IH, orb_false_r.
  destruct ev as [[]| | | |[]| | | |]; cbn in *; congruence.
Qed.

(** X5.  Without a chart, [monitor] accumulates nothing and saves no
    figure: from the start of the program the series is empty at the end
    of every run, however long. *)
Theorem no_plot_no_series w pid cfg s' c :
  truthy (plot cfg) = false ->
  monitor w pid cfg initial = (s', c) ->
  log s' = empty_log /\
  existsb is_chart (trace s') = false.
Proof.
  intros P H. split.
  - rewrite monitor_run in H.
    destruct (setup w pid cfg initial) as [s1 c1] eqn:E1.
    destruct (setup_events _ _ _ _ E1) as (_ & _ & _ & L1 & _).
    assert (L1' : log s1 = empty_log) by (destruct L1 as [->| ->]; reflexivity).
    destruct c1 as [[]| | |]; try (inversion H; subst; exact L1').
    destruct (sampling w cfg s1) as [s2 c2] eqn:E2.
    destruct (sampling_log _ _ _ E2) as (c' & W).
    pose proof (@while_true_without_plot cfg (w_start w) (w_ticks w) P
                  s1 s2 c' W) as L2.
    destruct c2 as [[]| | |]; try (inversion H; subst; congruence).
    destruct (@finish_events w pid cfg s2 s' c H) as (_ & _ & _ & L3 & _).
    congruence.
  - destruct (monitor_events _ _ _ _ H) as (tr & T & F).
    rewrite T. cbn [initial trace app].
    clear T H. induction F as [|ev tr Hev _ IH]; [reflexivity|].
    cbn [existsb]. rewrite IH, orb_false_r.
    destruct ev as [[]| | | |[]| | | |]; cbn in *; congruence.
Qed.

(** X6.  Attached to a process id, [main] prints that it attaches, and
    never spawns a command nor kills a process, however the run ends. *)
Theorem attached_process_is_never_killed w positional opts pid :
  Py.int positional = Some pid ->
  exists tr,
    trace (fst (main w positional opts initial))
      = EPrint (Attaching pid) :: tr /\
    existsb is_spawn tr = false /\
    existsb is_kill tr = false.
Proof.
  intros Hi. rewrite main_run, Hi.
  destruct (monitor w pid _ _) as [s1 c1] eqn:E.
  destruct (monitor_events _ _ _ _ E) as (tr & T & F).
  exists tr. cbn [push initial trace app] in T.
  split; [destruct c1 as [[]| | |]; exact T|].
  clear T E. induction F as [|ev tr Hev _ IH]; [split; reflexivity|].
  destruct IH as (IH1 & IH2). cbn [existsb]. rewrite IH1, IH2, !orb_false_r.
  destruct ev as [[]| | | |[]| | | |]; cbn in *; split; congruence.
Qed.

(** X7.  When logging, what the log file holds is decided before the
    loop.  When the handle is obtained, the file opened and the header
    written, the file holds the header first and once, and after it data
    rows only, one per row event, however the run ends.  When one of the
    three fails, [monitor] ends with that exception and the file holds
    nothing. *)
Theorem log_file_is_header_then_rows w pid cfg s' c :
  truthy (logfile cfg) = true ->
  monitor w pid cfg initial = (s', c) ->
  (w_process w = Ok tt /\ w_open w = Ok tt /\ w_header w = Ok tt ->
   exists data,
     file_lines (trace s') = Header :: data /\
     forallb is_data data = true /\
     List.length data = rows (trace s')) /\
  (forall e,
     w_process w = Exc e \/
     (w_process w = Ok tt /\ w_open w = Exc e) \/
     (w_process w = Ok tt /\ w_open w = Ok tt /\ w_header w = Exc e) ->
     c = Thr e /\ file_lines (trace s') = []).
Proof.
  intros L H. split.
  - intros (Hp & Ho & Hh). rewrite monitor_run in H.
    destruct (setup w pid cfg initial) as [s1 c1] eqn:E1.
    assert (c1 = Val tt) as ->.
    { rewrite setup_run, Hp, L, Ho, Hh in E1. now inversion E1. }
    destruct (setup_events _ _ _ _ E1) as (t1 & T1 & _ & _ & F1).
    cbn [initial trace app] in T1. subst t1.
    rewrite L in F1.
    destruct (sampling w cfg s1) as [s2 c2] eqn:E2.
    destruct (sampling_events _ _ _ E2) as (t2 & T2 & F2).
    pose proof (@loop_file_lines cfg t2 F2) as D2.
    assert (R2 : List.length (file_lines t2) = rows (trace s1 ++ t2)).
    { rewrite rows_app. clear - F1 F2.
      assert (rows (trace s1) = 0%nat) as ->.
      { unfold rows.
        assert (G : forall l, file_lines l = [Header] ->
                              List.length (filter is_row l) = 0%nat).
        { induction l as [|ev l IHl]; [reflexivity|].
          change (ev :: l) with ([ev] ++ l). rewrite file_lines_app.
          destruct ev as [| | | |[]| | | |]; cbn; intros E; auto;
            try discriminate.
          inversion E as [E']. clear - E'.
          induction l as [|ev l IHl]; [reflexivity|].
          change (ev :: l) with ([ev] ++ l) in E'.
          rewrite file_lines_app in E'.
          destruct ev as [| | | |[]| | | |]; cbn in *; auto; discriminate. }
        now apply G. }
      cbn. induction F2 as [|ev tr Hev _ IH]; [reflexivity|].
      change (ev :: tr) with ([ev] ++ tr).
      rewrite file_lines_app, rows_app, length_app, IH.
      destruct ev as [[]| | | |[]| | | |]; cbn in *; try discriminate;
        reflexivity. }
    assert (Done : file_lines (trace s2) = Header :: file_lines t2).
    { rewrite T2, file_lines_app, F1. reflexivity. }
    assert (R2' : List.length (file_lines t2) = rows (trace s2)).
    { rewrite T2. exact R2. }
    destruct c2 as [[]| | |];
      try solve [inversion H; subst; exists (file_lines t2); auto].
    destruct (@finish_events w pid cfg s2 s' c H) as (t3 & T3 & _ & _ & F3).
    exists (file_lines t2).
    rewrite T3, file_lines_app, F3, app_nil_r, Done.
    split; [reflexivity|]. split; [exact D2|].
    rewrite rows_app, <- R2'.
    assert (rows t3 = 0%nat) as ->; [|lia].
    clear - F3. unfold rows.
    induction t3 as [|ev l IHl]; [reflexivity|].
    change (ev :: l) with ([ev] ++ l) in F3. rewrite file_lines_app in F3.
    destruct ev as [| | | |[]| | | |]; cbn in *; auto; discriminate.
  - intros e Hfail. rewrite monitor_run, setup_run in H.
    destruct Hfail as [Hp | [(Hp & Ho) | (Hp & Ho & Hh)]].
    + rewrite Hp in H. inversion H; subst. split; reflexivity.
    + rewrite Hp, L, Ho in H. inversion H; subst. split; reflexivity.
    + rewrite Hp, L, Ho, Hh in H. inversion H; subst. split; reflexivity.
Qed.

(** ** The log file and the series *)

Lemma zip_rows_app ts :
  forall cs rs vs t c r v,
    List.length cs = List.length ts ->
    List.length rs = List.length ts ->
    List.length vs = List.length ts ->
    zip_rows (ts ++ [t]) (cs ++ [c]) (rs ++ [r]) (vs ++ [v])
    = zip_rows ts cs rs vs ++ [Row t c r v].
Proof.
  induction ts as [|t0 ts IH]; intros [|c0 cs] [|r0 rs] [|v0 vs] t c r v;
    cbn; intros H1 H2 H3; try discriminate; [reflexivity|].
  rewrite IH; [reflexivity|lia|lia|lia].
Qed.

Lemma series_rows_appends n t c r v ior iow lg :
  holds lg n ->
  series_rows (run_appends (appends t c r v ior iow) lg)
  = series_rows lg ++ [Row t c r v].
Proof.
  intros H. destruct (holds_lengths H) as (H1 & H2 & H3 & H4 & _).
  unfold series_rows. cbn. apply zip_rows_app; congruence.
Qed.

(** X8.  With logging and charting both enabled, as long as the loop
    runs and when it ends by [break], the data rows of the log file are
    the samples of the series, row by row: the same elapsed time, CPU,
    real and virtual memory, in the same order. *)
Theorem log_rows_are_the_series cfg st ticks :
  truthy (logfile cfg) = true ->
  truthy (plot cfg) = true ->
  forall s0 s c,
    in_step s0 ->
    while_true (iteration cfg st) ticks s0 = (s, c) ->
    (c = Val tt \/ c = Pending) ->
    in_step s.
Proof.
  intros L P. induction ticks as [|tk later IH]; intros s0 s c I H Hc.
  - cbn in H. inversion H; subst. exact I.
  - cbn [while_true] in H.
    destruct (iteration cfg st tk s0) as [s1 c1] eqn:E.
    destruct c1 as [[]| |e|].
    + apply (IH s1 s c); [|exact H|exact Hc].
      destruct (iteration_val _ _ _ _ E)
        as (c0 & m & cs & r2 & r3 & tot & _ & _ & _ & _ & _ & _ & _ & T & Lg).
      rewrite L in T. rewrite P in Lg.
      destruct I as ((n & Hn) & I). split.
      * exists (S n). rewrite Lg. now apply holds_appends.
      * rewrite T, file_lines_app, filter_app, I, Lg.
        rewrite (series_rows_appends _ _ _ _ _ _ Hn). reflexivity.
    + inversion H; subst.
      destruct (iteration_events _ _ _ _ E) as (tr & T & _ & B).
      destruct (B eq_refl) as (Lg & F).
      destruct I as (Hn & I). split; [now rewrite Lg|].
      rewrite T, file_lines_app, F, app_nil_r, Lg. exact I.
    + inversion H; subst. destruct Hc; discriminate.
    + inversion H; subst.
      exfalso. apply (@iteration_not_pending cfg st tk).
      now rewrite <- (iteration_flow _ _ _ _ E).
Qed.

(** ** The order of the series *)

Lemma in_firstn (A : Type) (x : A) n :
  forall l, In x (firstn n l) -> In x l.
Proof.
  induction n as [|n IH]; intros [|y l]; cbn; try tauto.
  intros [->|H]; auto.
Qed.

Lemma firstn_sorted (l : list Q) n :
  StronglySorted Qle l -> StronglySorted Qle (firstn n l).
Proof.
  intros H. revert n. induction H as [|x l Hl IH Hx]; intros [|n]; cbn;
    try constructor; auto.
  rewrite Forall_forall in *. intros y Hy. apply Hx.
  eapply in_firstn; exact Hy.
Qed.

Lemma elapsed_sorted st (ticks : list Tick) :
  StronglySorted Qle (map t_time ticks) ->
  StronglySorted Qle (map (elapsed st) ticks).
Proof.
  induction ticks as [|tk ticks IH]; cbn; intros H; [constructor|].
  inversion H as [|? ? Hs Hf]; subst. constructor; [auto|].
  rewrite Forall_forall in *. intros y Hy.
  apply in_map_iff in Hy. destruct Hy as (tk' & <- & Hin).
  unfold elapsed.
  assert (t_time tk <= t_time tk') by (apply Hf; now apply in_map).
  lra.
Qed.

(** X9.  The recorded times are the elapsed times of the first
    iterations of the loop, one per iteration and in their order, however
    the loop ends; so the series is in temporal order whenever the clock
    does not go back. *)
Theorem series_is_in_iteration_order cfg st ticks :
  forall s0 s c,
    while_true (iteration cfg st) ticks s0 = (s, c) ->
    (exists n,
       (n <= List.length ticks)%nat /\
       times (log s) = times (log s0) ++ map (elapsed st) (firstn n ticks)) /\
    (times (log s0) = [] ->
     StronglySorted Qle (map t_time ticks) ->
     StronglySorted Qle (times (log s))).
Proof.
  intros s0 s c H.
  assert (Pre : exists n,
             (n <= List.length ticks)%nat /\
             times (log s) =
               times (log s0) ++ map (elapsed st) (firstn n ticks)).
  { destruct (truthy (plot cfg)) eqn:P.
    - revert s0 s c H.
      induction ticks as [|tk later IH]; intros s0 s c H.
      + cbn in H. inversion H; subst. exists 0%nat. cbn.
        now rewrite app_nil_r.
      + cbn [while_true] in H.
        destruct (iteration cfg st tk s0) as [s1 c1] eqn:E.
        assert (Last : forall x, (s1, x) = (s, c) ->
                  exists n,
                    (n <= List.length (tk :: later))%nat /\
                    times (log s) =
                      times (log s0)
                      ++ map (elapsed st) (firstn n (tk :: later))).
        { intros x Hx. inversion Hx; subst.
          destruct (iteration_shape _ _ _ _ E)
            as (tr & j & cp & r & v & ior & iow & _ & Hl & _).
          destruct (run_firstn_appends j (t_time tk - st) cp r v ior iow
                      (log s0)) as (Ht & _).
          rewrite Hl, Ht. destruct (Nat.ltb 0 j).
          - exists 1%nat. cbn. split; [lia|reflexivity].
          - exists 0%nat. cbn. split; [lia|reflexivity]. }
        destruct c1 as [[]| | |]; try (eapply Last; exact H).
        destruct (iteration_val _ _ _ _ E)
          as (c0 & m & cs & r2 & r3 & tot & _ & _ & _ & _ & _ & _ & _ & _
              & Lg).
        rewrite P in Lg.
        destruct (IH _ _ _ H) as (n & Hn & Ht).
        exists (S n). cbn [List.length firstn map]. split; [lia|].
        rewrite Ht, Lg. cbn. rewrite <- app_assoc. reflexivity.
    - exists 0%nat. cbn. rewrite app_nil_r. split; [lia|].
      now rewrite (@while_true_without_plot cfg st ticks P s0 s c H). }
  split; [exact Pre|].
  intros H0 Hs. destruct Pre as (n & _ & ->). rewrite H0. cbn [app].
  rewrite <- firstn_map. apply firstn_sorted. now apply elapsed_sorted.
Qed.

(** ** A negative interval *)

Lemma sleep_negative i tk : i < 0 -> sleep i tk = Exc ValueError.
Proof.
  intros H. unfold sleep.
  now rewrite (proj2 (compare_gt 0 i) H).
Qed.

Lemma iteration_negative_interval cfg st tk i s s' c :
  interval cfg = Some i ->
  i < 0 ->
  iteration cfg st tk s = (s', c) ->
  c <> Val tt /\
  log s' = log s /\
  (completes (set_interval None cfg) st tk = true ->
   c = Thr ValueError /\
   rows (trace s') =
     (rows (trace s) + if truthy (logfile cfg) then 1 else 0)%nat).
Proof.
  intros Hi Hneg. unfold completes, flow.
  unfold iteration. cbn [set_interval logfile plot duration interval
                           include_children].
  rewrite Hi, (sleep_negative tk Hneg).
  unfold query_status, root_metrics, when, call, bind, brk,
    throw, ret, emit, modify_log.
  repeat (run_step; cbn [fst snd trace log]).
  all: rewrite ?record_values_eq; cbn [fst snd trace log].
  all: intros H; inversion H; subst; clear H; cbn [trace log].
  all: split; [discriminate|]; split; [reflexivity|].
  all: try (intros; discriminate).
  all: intros _; split; [reflexivity|].
  all: rewrite ?rows_app; cbn; lia.
Qed.

(** X10.  With a negative interval no iteration runs to its end: the
    loop is over after its first iteration, nothing is ever appended to
    the series, and an iteration that would otherwise have run to its end
    raises [ValueError] at the sleep, after its row has been written when
    logging. *)
Theorem negative_interval_ends_first_iteration cfg st i tk later s0 s c :
  interval cfg = Some i ->
  i < 0 ->
  while_true (iteration cfg st) (tk :: later) s0 = (s, c) ->
  c <> Pending /\
  log s = log s0 /\
  (completes (set_interval None cfg) st tk = true ->
   c = Thr ValueError /\
   rows (trace s) =
     (rows (trace s0) + if truthy (logfile cfg) then 1 else 0)%nat).
Proof.
  intros Hi Hneg H. cbn [while_true] in H.
  destruct (iteration cfg st tk s0) as [s1 c1] eqn:E.
  destruct (@iteration_negative_interval cfg st tk i s0 s1 c1 Hi Hneg E)
    as (NV & L & V).
  pose proof (@iteration_not_pending cfg st tk) as NP.
  rewrite (iteration_flow _ _ _ _ E) in NP.
  destruct c1 as [[]| |e|]; try congruence.
  - inversion H; subst. split; [discriminate|]. split; [exact L|].
    intros Hc. destruct (V Hc). discriminate.
  - inversion H; subst. split; [discriminate|]. auto.
Qed.

(** ** The axes of the chart *)

Lemma max_from_bounds l :
  forall m, m <= Py.max_from m l /\ Forall (fun x => x <= Py.max_from m l) l.
Proof.
  unfold Py.max_from.
  induction l as [|x l IH]; intros m; cbn [fold_left].
  - split; [lra|constructor].
  - destruct (Py.gt x m) eqn:G.
    + apply compare_gt in G. destruct (IH x) as (H1 & H2).
      split; [lra|]. constructor; assumption.
    + apply compare_not_gt in G. destruct (IH m) as (H1 & H2).
      split; [exact H1|]. constructor; [lra|assumption].
Qed.

Lemma max_bounds l m :
  Py.max l = Ok m -> Forall (fun x => x <= m) l.
Proof.
  destruct l as [|x l]; cbn; intros H; inversion H; subst.
  destruct (max_from_bounds l x) as (H1 & H2). constructor; assumption.
Qed.

Lemma max_nonneg l m :
  Py.max l = Ok m -> Forall (fun x => 0 <= x) l -> 0 <= m.
Proof.
  destruct l as [|x l]; cbn; intros H F; inversion H; subst.
  inversion F; subst. destruct (max_from_bounds l x) as (H1 & _). lra.
Qed.

Lemma scaled_bounds l m :
  0 <= m -> Forall (fun x => x <= m) l ->
  Forall (fun x => x <= m * (12 # 10)) l.
Proof.
  intros Hm F. eapply Forall_impl; [|exact F]. intros x Hx.
  cbv beta in *. lra.
Qed.

Lemma Ok_inj (A : Type) (a b : A) : Ok a = Ok b -> a = b.
Proof. intros H. now injection H. Qed.

Lemma plot_curve_inv x y col c :
  plot_curve x y col = Ok c ->
  List.length x = List.length y /\ c = {| xs := x; ys := y; color := col |}.
Proof.
  unfold plot_curve.
  destruct (Nat.eqb_spec (List.length x) (List.length y)) as [E|]; [|discriminate].
  intros H. apply Ok_inj in H. now split.
Qed.

Lemma max_from_member l :
  forall m, Py.max_from m l = m \/ In (Py.max_from m l) l.
Proof.
  unfold Py.max_from.
  induction l as [|x l IH]; intros m; cbn [fold_left]; [now left|].
  destruct (Py.gt x m).
  - destruct (IH x) as [-> | H]; right; [now left|now right].
  - destruct (IH m) as [-> | H]; [now left|right; now right].
Qed.

(** What a drawn chart says about the series it was drawn from. *)
Lemma chart_inv lg with_io max_scale count c :
  chart lg with_io max_scale count = Ok c ->
  exists top a,
    (if max_scale then exists n, count = Some n /\ top = inject_Z (100 * n)
     else exists m, Py.max (cpu lg) = Ok m /\ top = m * (12 # 10)) /\
    List.length (times lg) = List.length (cpu lg) /\
    List.length (times lg) = List.length (mem_real lg) /\
    Py.max (mem_real lg) = Ok a /\
    left_curve c = {| xs := times lg; ys := cpu lg; color := "r" |} /\
    left_ylim c = (0, top) /\
    if with_io then
      exists b d,
        Py.max (io_read lg) = Ok b /\ Py.max (io_write lg) = Ok d /\
        List.length (times lg) = List.length (io_read lg) /\
        List.length (times lg) = List.length (io_write lg) /\
        right_curves c =
          [ {| xs := times lg; ys := mem_real lg; color := "b" |};
            {| xs := times lg; ys := io_read lg; color := "g" |};
            {| xs := times lg; ys := io_write lg; color := "m" |} ] /\
        right_ylim c = (0, Py.max_from a [b; d] * (12 # 10))
    else
      right_curves c =
        [ {| xs := times lg; ys := mem_real lg; color := "b" |} ] /\
      right_ylim c = (0, a * (12 # 10)).
Proof.
  unfold chart. intros H.
  destruct (plot_curve (times lg) (cpu lg) "r") as [l|] eqn:P;
    [|discriminate].
  apply plot_curve_inv in P as [L1 ->].
  cbv zeta in H.
  destruct (if max_scale then _ else _) as [top|] eqn:T; [|discriminate].
  assert (HT : if max_scale
               then exists n, count = Some n /\ top = inject_Z (100 * n)
               else exists m, Py.max (cpu lg) = Ok m /\ top = m * (12 # 10)).
  { destruct max_scale.
    - destruct count as [n|]; [|discriminate].
      apply Ok_inj in T. exists n. now split.
    - destruct (Py.max (cpu lg)) as [m|]; [|discriminate].
      apply Ok_inj in T. exists m. now split. }
  clear T.
  destruct with_io.
  - destruct (plot_curve (times lg) (mem_real lg) "b") as [ram|] eqn:P1;
      [|discriminate].
    destruct (plot_curve (times lg) (io_read lg) "g") as [reads|] eqn:P2;
      [|discriminate].
    destruct (plot_curve (times lg) (io_write lg) "m") as [writes|] eqn:P3;
      [|discriminate].
    apply plot_curve_inv in P1 as [L2 ->].
    apply plot_curve_inv in P2 as [L3 ->].
    apply plot_curve_inv in P3 as [L4 ->].
    destruct (Py.max (mem_real lg)) as [a|] eqn:A; [|discriminate].
    destruct (Py.max (io_read lg)) as [b|] eqn:B; [|discriminate].
    destruct (Py.max (io_write lg)) as [d|] eqn:D; [|discriminate].
    apply Ok_inj in H. subst c. exists top, a.
    cbv [left_curve left_ylim right_curves right_ylim].
    repeat (split; [first [exact HT|assumption|reflexivity]|]).
    exists b, d. repeat (split; [first [assumption|reflexivity]|]).
    reflexivity.
  - destruct (plot_curve (times lg) (mem_real lg) "b") as [ram|] eqn:P1;
      [|discriminate].
    apply plot_curve_inv in P1 as [L2 ->].
    destruct (Py.max (mem_real lg)) as [a|] eqn:A; [|discriminate].
    apply Ok_inj in H. subst c. exists top, a.
    cbv [left_curve left_ylim right_curves right_ylim].
    repeat (split; [first [exact HT|assumption|reflexivity]|]).
    reflexivity.
Qed.

(** X11.  With the automatic CPU scale, the CPU axis goes from 0 to 1.2
    times the largest CPU sample, so every non-negative series fits
    under its upper limit. *)
Theorem cpu_axis_covers_the_samples lg with_io count c :
  chart lg with_io false count = Ok c ->
  Forall (fun x => 0 <= x) (cpu lg) ->
  ys (left_curve c) = cpu lg /\
  xs (left_curve c) = times lg /\
  fst (left_ylim c) = 0 /\
  (exists m, Py.max (cpu lg) = Ok m /\ snd (left_ylim c) = m * (12 # 10)) /\
  Forall (fun y => y <= snd (left_ylim c)) (cpu lg).
Proof.
  intros H F.
  apply chart_inv in H
    as (top & a & (m & M & ->) & _ & _ & _ & -> & -> & _).
  cbv [ys xs fst snd].
  repeat (split; [reflexivity|]).
  split; [exists m; now split|].
  apply scaled_bounds; [eapply max_nonneg; eauto|now apply max_bounds].
Qed.

(** X12.  The right axis goes from 0 to 1.2 times the largest value of
    the curves drawn against it.  Without I/O that is real memory alone,
    and the upper limit is 1.2 times the largest real-memory sample.  With
    I/O the curves are real memory, I/O read and I/O write, all against
    the same times, and the upper limit is 1.2 times the largest of the
    three series' largest samples.  Every non-negative curve fits under
    the upper limit. *)
Theorem right_axis_covers_the_curves lg with_io max_scale count c :
  chart lg with_io max_scale count = Ok c ->
  Forall (fun x => 0 <= x) (mem_real lg) ->
  Forall (fun x => 0 <= x) (io_read lg) ->
  Forall (fun x => 0 <= x) (io_write lg) ->
  map (@ys) (right_curves c) =
    (if with_io then [mem_real lg; io_read lg; io_write lg]
     else [mem_real lg]) /\
  Forall (fun curve => xs curve = times lg) (right_curves c) /\
  fst (right_ylim c) = 0 /\
  (exists a,
     Py.max (mem_real lg) = Ok a /\
     if with_io then
       exists b d top,
         Py.max (io_read lg) = Ok b /\
         Py.max (io_write lg) = Ok d /\
         top = Py.max_from a [b; d] /\
         In top [a; b; d] /\
         Forall (fun x => x <= top) [a; b; d] /\
         snd (right_ylim c) = top * (12 # 10)
     else snd (right_ylim c) = a * (12 # 10)) /\
  Forall (fun curve => Forall (fun y => y <= snd (right_ylim c)) (ys curve))
         (right_curves c).
Proof.
  intros H F1 F2 F3.
  apply chart_inv in H as (top & a & _ & _ & _ & A & _ & _ & R).
  pose proof (@max_nonneg _ _ A F1) as Na.
  pose proof (@max_bounds _ _ A) as Ba.
  destruct with_io.
  - destruct R as (b & d & B & D & _ & _ & -> & ->).
    pose proof (@max_bounds _ _ B) as Bb.
    pose proof (@max_bounds _ _ D) as Bd.
    destruct (max_from_bounds [b; d] a) as (Ha & Hbd).
    pose proof (max_from_member [b; d] a) as Hin.
    inversion Hbd as [|? ? Hb Hd']; subst.
    inversion Hd' as [|? ? Hd _]; subst.
    set (m := Py.max_from a [b; d]) in *.
    assert (Hm : 0 <= m) by lra.
    cbv [fst snd]. cbn [map ys].
    split; [reflexivity|].
    split; [repeat constructor|].
    split; [reflexivity|].
    split.
    { exists a. split; [exact A|]. exists b, d, m.
      repeat (split; [first [assumption|reflexivity]|]).
      split; [destruct Hin as [-> | Hin]; [now left|now right]|].
      split; [repeat constructor; assumption|reflexivity]. }
    constructor; [|constructor; [|constructor; [|constructor]]]; cbn [ys].
    + apply scaled_bounds; [exact Hm|].
      eapply Forall_impl; [|exact Ba]. intros x Hx. cbv beta in *. lra.
    + apply scaled_bounds; [exact Hm|].
      eapply Forall_impl; [|exact Bb]. intros x Hx. cbv beta in *. lra.
    + apply scaled_bounds; [exact Hm|].
      eapply Forall_impl; [|exact Bd]. intros x Hx. cbv beta in *. lra.
  - destruct R as (-> & ->).
    cbv [fst snd]. cbn [map ys].
    split; [reflexivity|].
    split; [repeat constructor|].
    split; [reflexivity|].
    split; [exists a; now split|].
    constructor; [|constructor]. cbn [ys].
    apply scaled_bounds; [exact Na|exact Ba].
Qed.

(** ** After a clean exit *)







(** ** The spawned process *)

Lemma no_kill_among_monitor_events pid cfg tr :
  Forall (fun ev => monitor_event pid cfg ev = true) tr ->
  existsb is_kill tr = false /\ existsb is_spawn tr = false.
Proof.
  induction 1 as [|ev tr Hev _ (IH1 & IH2)]; [split; reflexivity|].
  cbn [existsb]. rewrite IH1, IH2, !orb_false_r.
  destruct ev as [[]| | | |[]| | | |]; cbn in *; split; congruence.
Qed.




(** X14.  Started from a command, [main] prints that it starts it, spawns
    it once, lets [monitor] attach to the spawned pid, and kills that pid
    as its last action exactly when it returns: a run that ends with an
    exception, or is still going, has killed nothing. *)
Theorem spawned_process_killed_iff_main_returns w positional opts pid :
  Py.int positional = None ->
  w_popen w = Ok pid ->
  exists tr,
    trace (fst (main w positional opts initial))
      = EPrint (StartingUp positional) :: ESpawn positional pid :: tr
        ++ (match snd (main w positional opts initial) with
            | Val _ => [EKill pid]
            | _ => []
            end) /\
    Forall (fun ev =>
              monitor_event pid (config_of (parse_args positional opts)) ev
              = true) tr /\
    existsb is_kill tr = false /\
    existsb is_spawn tr = false.
Proof.
  intros Hi Hs. rewrite main_run, Hi, Hs.
  destruct (monitor w pid _ _) as [s1 c1] eqn:E.
  destruct (monitor_events _ _ _ _ E) as (tr & T & F).
  cbn [push initial trace app] in T.
  exists tr. split.
  - destruct c1 as [[]| | |]; cbn [fst snd push trace]; rewrite T;
      rewrite ?app_nil_r; reflexivity.
  - split; [exact F|]. eapply no_kill_among_monitor_events; exact F.
Qed.

(** ** Instances *)

Lemma clan_lists_the_grandchild :
  In Clan.grandchild
     [Clan.first; Clan.grandchild; Clan.second; Clan.third]
  <-> Reach Clan.root Clan.grandchild.
Proof.
  apply (@all_children_lists_descendants Clan.root
           [Clan.first; Clan.grandchild; Clan.second; Clan.third] eq_refl).
Defined.

Lemma clan_in_preorder :
  [Clan.first; Clan.grandchild; Clan.second; Clan.third]
  = flat_map (fun c => c :: offspring (all_children c)) (kids Clan.root) /\
  Forall (fun c => exists l, all_children c = Ok l) (kids Clan.root).
Proof.
  apply (@all_children_is_preorder Clan.root
           [Clan.first; Clan.grandchild; Clan.second; Clan.third] eq_refl).
Defined.

Lemma clan_with_gone_fails_at_gone :
  exists n,
    (n = Clan.root_with_gone \/ Reach Clan.root_with_gone n) /\
    escapes n = Some NoSuchProcess.
Proof.
  apply (proj2 (all_children_returns_iff_nothing_escapes
                  Clan.root_with_gone) NoSuchProcess eq_refl).
Defined.

Lemma chart_only_run_touches_no_file :
  let run :=
    monitor (Scenario.world Scenario.three_then_zombie) 4242
            (Scenario.cfg None (Some "plot.png"%string) None None
                          false true false) initial in
  exists tr,
    trace (fst run) = trace initial ++ tr /\
    existsb is_file_event tr = false.
Proof.
  intros run.
  apply (@no_log_file_no_file_event
           (Scenario.world Scenario.three_then_zombie) 4242
           (Scenario.cfg None (Some "plot.png"%string) None None
                         false true false)
           initial (fst run) (snd run)).
  - reflexivity.
  - apply surjective_pairing.
Defined.

Lemma log_only_run_keeps_no_series :
  let run :=
    monitor (Scenario.world Scenario.three_then_zombie) 4242
            (Scenario.cfg (Some "log.txt"%string) None None None
                          false true false) initial in
  log (fst run) = empty_log /\
  existsb is_chart (trace (fst run)) = false.
Proof.
  intros run.
  apply (@no_plot_no_series
           (Scenario.world Scenario.three_then_zombie) 4242
           (Scenario.cfg (Some "log.txt"%string) None None None
                         false true false)
           (fst run) (snd run)).
  - reflexivity.
  - apply surjective_pairing.
Defined.

Lemma attached_1234_is_never_killed :
  exists tr,
    trace (fst (main (Scenario.world Scenario.three_then_zombie) "1234"
                     [OptLog "log.txt"; OptPlot "plot.png"] initial))
      = EPrint (Attaching 1234) :: tr /\
    existsb is_spawn tr = false /\
    existsb is_kill tr = false.
Proof.
  apply (@attached_process_is_never_killed
           (Scenario.world Scenario.three_then_zombie) "1234"
           [OptLog "log.txt"; OptPlot "plot.png"] 1234 eq_refl).
Defined.

Lemma three_then_zombie_log_file :
  let run :=
    monitor (Scenario.world Scenario.three_then_zombie) 4242
            Scenario.both initial in
  let failed :=
    monitor (Scenario.world_unwritable Scenario.three_then_zombie) 4242
            Scenario.both initial in
  (exists data,
     file_lines (trace (fst run)) = Header :: data /\
     forallb is_data data = true /\
     List.length data = rows (trace (fst run))) /\
  (snd failed = Thr OSError /\ file_lines (trace (fst failed)) = []).
Proof.
  intros run failed. split.
  - apply (@log_file_is_header_then_rows
             (Scenario.world Scenario.three_then_zombie) 4242 Scenario.both
             (fst run) (snd run)).
    + reflexivity.
    + apply surjective_pairing.
    + repeat split.
  - apply (@log_file_is_header_then_rows
             (Scenario.world_unwritable Scenario.three_then_zombie) 4242
             Scenario.both (fst failed) (snd failed)).
    + reflexivity.
    + apply surjective_pairing.
    + right. left. split; reflexivity.
Defined.

Lemma initial_in_step : in_step initial.
Proof. split; [exists 0%nat; exact holds_empty|reflexivity]. Qed.

Lemma three_then_zombie_rows_are_the_series :
  in_step (fst (while_true (iteration Scenario.both 100)
                           Scenario.three_then_zombie initial)).
Proof.
  apply (@log_rows_are_the_series Scenario.both 100
           Scenario.three_then_zombie eq_refl eq_refl initial
           (fst (while_true (iteration Scenario.both 100)
                            Scenario.three_then_zombie initial))
           (snd (while_true (iteration Scenario.both 100)
                            Scenario.three_then_zombie initial))
           initial_in_step).
  - apply surjective_pairing.
  - left. vm_compute. reflexivity.
Defined.

Lemma three_then_zombie_in_order :
  let run := while_true (iteration Scenario.both 100)
                        Scenario.three_then_zombie initial in
  (exists n,
     (n <= 4)%nat /\
     times (log (fst run)) =
       times (log initial)
       ++ map (elapsed 100) (firstn n Scenario.three_then_zombie)) /\
  (times (log initial) = [] ->
   StronglySorted Qle (map t_time Scenario.three_then_zombie) ->
   StronglySorted Qle (times (log (fst run)))).
Proof.
  intros run.
  apply (@series_is_in_iteration_order Scenario.both 100
           Scenario.three_then_zombie initial (fst run) (snd run)).
  apply surjective_pairing.
Defined.

Lemma interval_minus_one_fails_at_once :
  let c := Scenario.cfg (Some "log.txt"%string) (Some "plot.png"%string)
                        None (Some (-1)) false true false in
  let run := while_true (iteration c 100) Scenario.three_then_zombie
                        initial in
  snd run <> Pending /\
  log (fst run) = log initial /\
  (completes (set_interval None c) 100
             (Scenario.tick 101 Scenario.running) = true ->
   snd run = Thr ValueError /\
   rows (trace (fst run)) = (rows (trace initial) + 1)%nat).
Proof.
  intros c run.
  apply (@negative_interval_ends_first_iteration c 100 (-1)
           (Scenario.tick 101 Scenario.running)
           (tl Scenario.three_then_zombie) initial (fst run) (snd run)).
  - reflexivity.
  - reflexivity.
  - apply surjective_pairing.
Defined.

Lemma one_sample_fits_the_cpu_axis :
  let one :=
    log (fst (iteration Scenario.both 100
                        (Scenario.tick 101 Scenario.running) initial)) in
  exists c,
    chart one true false (Some 4%Z) = Ok c /\
    Forall (fun y => y <= snd (left_ylim c)) (cpu one).
Proof.
  intros one.
  destruct (chart one true false (Some 4%Z)) as [c|e] eqn:E.
  - exists c. split; [reflexivity|].
    apply (@cpu_axis_covers_the_samples one true (Some 4%Z) c E).
    repeat constructor. discriminate.
  - vm_compute in E. discriminate.
Defined.

Lemma one_sample_fits_the_right_axis :
  let one :=
    log (fst (iteration Scenario.both 100
                        (Scenario.tick 101 Scenario.running) initial)) in
  exists c,
    chart one true false (Some 4%Z) = Ok c /\
    (exists a,
       Py.max (mem_real one) = Ok a /\
       exists b d top,
         Py.max (io_read one) = Ok b /\
         Py.max (io_write one) = Ok d /\
         top = Py.max_from a [b; d] /\
         In top [a; b; d] /\
         Forall (fun x => x <= top) [a; b; d] /\
         snd (right_ylim c) = top * (12 # 10)) /\
    Forall (fun curve => Forall (fun y => y <= snd (right_ylim c)) (ys curve))
           (right_curves c).
Proof.
  intros one.
  destruct (chart one true false (Some 4%Z)) as [c|e] eqn:E.
  - exists c. split; [reflexivity|].
    assert (P : Forall (fun x => 0 <= x) (mem_real one) /\
                Forall (fun x => 0 <= x) (io_read one) /\
                Forall (fun x => 0 <= x) (io_write one))
      by (repeat constructor; discriminate).
    destruct P as (P1 & P2 & P3).
    destruct (@right_axis_covers_the_curves one true false (Some 4%Z) c E
                                            P1 P2 P3)
      as (_ & _ & _ & V & F).
    split; [exact V|exact F].
  - vm_compute in E. discriminate.
Defined.


Lemma sleep_ten_killed_as_it_returns :
  let run := main (Scenario.world Scenario.three_then_zombie) "sleep 10"
                  [OptLog "log.txt"; OptPlot "plot.png"] initial in
  exists tr,
    trace (fst run)
      = EPrint (StartingUp "sleep 10") :: ESpawn "sleep 10" 4242 :: tr
        ++ (match snd run with
            | Val _ => [EKill 4242]
            | _ => []
            end) /\
    Forall (fun ev =>
              monitor_event 4242
                (config_of (parse_args "sleep 10"
                              [OptLog "log.txt"; OptPlot "plot.png"])) ev
              = true) tr /\
    existsb is_kill tr = false /\
    existsb is_spawn tr = false.
Proof.
  intros run.
  apply (@spawned_process_killed_iff_main_returns
           (Scenario.world Scenario.three_then_zombie) "sleep 10"
           [OptLog "log.txt"; OptPlot "plot.png"] 4242 eq_refl eq_refl).
Defined.
